(** * TTF futures contract resolution: a shallow embedding of [ttf_futures.py]

    The development follows the class [DataStore] of [src/ttf_futures.py]:
    the calendar table [self.df], the unified entry point [query] with its
    four security types, and [query_spread].

    Modelling conventions.
    - Python [str] values are [string]s: the texts covered are those of
      ASCII characters.  The three regular expressions of the module are
      written out as scanners; on such texts [\d] is one of [0]..[9], and
      so is a digit of [int()].  Python's [\d] and [int()] also take the
      decimal digits of other scripts, which these texts do not contain.
    - A pandas frame over the calendar columns is a [list Row] in row order;
      boolean-mask selection is [filter], [iloc] slicing follows Python's
      slice rules, and [sort_values] sorts ascending.  pandas sorts with its
      default quicksort, which promises no order among rows of equal key;
      the [sort_values] below puts them in row order, and the statements
      that pick a row of a sorted frame are worded for any ascending order
      of the rows ([ascending_sort_of]); none rests on that choice.
    - Every date kept as a ['%Y-%m-%d'] text in the table is a [Date];
      [pd.to_datetime] of it is the [Timestamp] at midnight.  A
      [point_in_time] is taken after [pd.to_datetime] has parsed it, and a
      [security_type] after [SecurityType(security_type)] has converted it.
    - Years are unbounded integers: pandas keeps them within 1677..2262,
      so [year1 + 1] never wraps.
    - [print] appends a line to the console; [self.df] and the console make
      up the [World] threaded through every method. *)

From Stdlib Require Import ZArith List Bool Lia Arith.
From Stdlib Require Import Ascii String.
From Stdlib Require Import Decimal DecimalFacts DecimalString DecimalZ.
From Stdlib Require Import Sorting.Sorted Sorting.Permutation.
From Stdlib Require Import RelationClasses.
Import ListNotations.

Local Open Scope string_scope.
Local Open Scope Z_scope.

(** ** Python built-ins on text *)

Module Py.

(** [str(n)] for a Python [int]. *)
Definition str (n : Z) : string := NilZero.string_of_int (Z.to_int n).

(** [int(s)] for a text of decimal digits.  Python raises [ValueError] on
    any other text; every call in the module passes a regex group [\d+],
    so that branch is never taken and is given the value [0] here. *)
Definition int (s : string) : Z :=
  match NilZero.int_of_string s with
  | Some d => Z.of_int d
  | None => 0
  end.

(** [\d], and a digit for [int()], on an ASCII character: [0]..[9]. *)
Definition is_digit (c : ascii) : bool :=
  let n := nat_of_ascii c in (Nat.leb 48 n && Nat.leb n 57)%bool.

Definition is_upper (c : ascii) : bool :=
  let n := nat_of_ascii c in (Nat.leb 65 n && Nat.leb n 90)%bool.

Definition is_lower (c : ascii) : bool :=
  let n := nat_of_ascii c in (Nat.leb 97 n && Nat.leb n 122)%bool.

Definition is_alpha (c : ascii) : bool := (is_upper c || is_lower c)%bool.

Definition upper_char (c : ascii) : ascii :=
  if is_lower c then ascii_of_nat (nat_of_ascii c - 32) else c.

(** [s.upper()] *)
Fixpoint upper (s : string) : string :=
  match s with
  | EmptyString => EmptyString
  | String c s' => String (upper_char c) (upper s')
  end.

Fixpoint all_chars (p : ascii -> bool) (s : string) : bool :=
  match s with
  | EmptyString => true
  | String c s' => (p c && all_chars p s')%bool
  end.

(** Longest prefix of [s] whose characters satisfy [p], and the rest. *)
Fixpoint span (p : ascii -> bool) (s : string) : string * string :=
  match s with
  | EmptyString => (EmptyString, EmptyString)
  | String c s' =>
      if p c then let '(a, b) := span p s' in (String c a, b)
      else (EmptyString, s)
  end.

(** [s] without the leading literal [lit], when it starts with it. *)
Fixpoint strip_prefix (lit s : string) : option string :=
  match lit, s with
  | EmptyString, _ => Some s
  | String a lit', String b s' =>
      if Ascii.eqb a b then strip_prefix lit' s' else None
  | String _ _, EmptyString => None
  end.

(** [old in s] *)
Fixpoint contains (old s : string) : bool :=
  (prefix old s ||
   match s with
   | EmptyString => false
   | String _ s' => contains old s'
   end)%bool.

(** [s.replace(old, new, count)] for a non-empty [old]: occurrences are
    replaced from the left without overlap; [count = None] replaces all.
    [skip] counts the characters of a matched occurrence still to drop. *)
Fixpoint replace_from (old new : string) (count : option nat) (skip : nat)
    (s : string) : string :=
  match s with
  | EmptyString => EmptyString
  | String c s' =>
      match skip with
      | S k => replace_from old new count k s'
      | O =>
          match count with
          | Some O => String c (replace_from old new count O s')
          | _ =>
              if prefix old s
              then new ++ replace_from old new (option_map Nat.pred count)
                            (String.length old - 1) s'
              else String c (replace_from old new count O s')
          end
      end
  end.

Definition replace (old new : string) (count : option nat) (s : string) : string :=
  replace_from old new count O s.

(** [dict.get]/[in] on a dict kept in insertion order. *)
Fixpoint dict_get (d : list (string * string)) (k : string) : option string :=
  match d with
  | [] => None
  | (k', v) :: d' => if String.eqb k' k then Some v else dict_get d' k
  end.

(** [l.index(x)].  Python raises [ValueError] when [x] is absent; the
    position past the end stands for that case. *)
Fixpoint list_index (x : string) (l : list string) : Z :=
  match l with
  | [] => 0
  | y :: l' => if String.eqb y x then 0 else 1 + list_index x l'
  end.

(** [l[start:stop]] with Python's treatment of negative and out-of-range
    bounds. *)
Definition slice {A : Type} (start stop : Z) (l : list A) : list A :=
  let len := Z.of_nat (List.length l) in
  let clamp i := if i <? 0 then Z.max (i + len) 0 else Z.min i len in
  let lo := clamp start in
  let hi := clamp stop in
  firstn (Z.to_nat (hi - lo)) (skipn (Z.to_nat lo) l).

End Py.

(** ** Regular expressions of the module *)

Module Re.
Import Py.

(** [re.match(r'TFM(\d+)', s)]: the group, when the text matches. *)
Definition match_generic (s : string) : option string :=
  match strip_prefix "TFM" s with
  | Some rest =>
      let '(digits, _) := span is_digit rest in
      if String.eqb digits EmptyString then None else Some digits
  | None => None
  end.

(** [re.match(r'TFM([A-Za-z]+)(\d+)', s)].  The two classes are disjoint,
    so the greedy letter group is the whole run of letters and backtracking
    cannot produce another match. *)
Definition match_monthly (s : string) : option (string * string) :=
  match strip_prefix "TFM" s with
  | Some rest =>
      let '(letters, rest1) := span is_alpha rest in
      let '(digits, _) := span is_digit rest1 in
      if (String.eqb letters EmptyString || String.eqb digits EmptyString)%bool then None
      else Some (letters, digits)
  | None => None
  end.

(** [re.match(r'TFM([A-Z]{3})([A-Z]{3})(\d+)', s)] *)
Definition match_spread (s : string) : option (string * string * string) :=
  match strip_prefix "TFM" s with
  | Some rest =>
      let m1 := substring 0 3 rest in
      let m2 := substring 3 3 rest in
      let '(digits, _) := span is_digit (substring 6 (String.length rest - 6) rest) in
      if (Nat.eqb (String.length m1) 3 && all_chars is_upper m1 &&
          Nat.eqb (String.length m2) 3 && all_chars is_upper m2 &&
          negb (String.eqb digits EmptyString))%bool
      then Some (m1, m2, digits)
      else None
  | None => None
  end.

(** The pattern [TFM\\([FGHJKMNQUVXZ])(\d{2})] tried at the start of [s]:
    the two groups. *)
Definition match_contract_here (s : string) : option (string * string) :=
  match strip_prefix "TFM\" s with
  | Some (String letter (String y1 (String y2 _))) =>
      if (contains (String letter EmptyString) "FGHJKMNQUVXZ" &&
          is_digit y1 && is_digit y2)%bool
      then Some (String letter EmptyString, String y1 (String y2 EmptyString))
      else None
  | _ => None
  end.

(** [re.match(r'.*TFM\\([FGHJKMNQUVXZ])(\d{2})', s)].  The greedy [.*]
    gives way from the right, so the groups are those of the last place
    where the rest of the pattern fits; [.] does not match a newline, so
    that place is not beyond the first newline. *)
Fixpoint match_contract (s : string) : option (string * string) :=
  match s with
  | EmptyString => match_contract_here s
  | String c s' =>
      match (if Ascii.eqb c "010"%char then None else match_contract s') with
      | Some groups => Some groups
      | None => match_contract_here s
      end
  end.

End Re.

(** ** Dates and timestamps *)

Record Date := mkDate { year : Z; month : Z; day : Z }.

(** A pandas [Timestamp]: a calendar date and the time elapsed since
    midnight. *)
Record Timestamp := mkTimestamp { date : Date; time_of_day : Z }.

Definition lex (c1 c2 : comparison) : comparison :=
  match c1 with Eq => c2 | _ => c1 end.

Definition date_compare (a b : Date) : comparison :=
  lex (year a ?= year b) (lex (month a ?= month b) (day a ?= day b)).

Definition ts_compare (a b : Timestamp) : comparison :=
  lex (date_compare (date a) (date b)) (time_of_day a ?= time_of_day b).

Definition ts_ltb (a b : Timestamp) : bool :=
  match ts_compare a b with Lt => true | _ => false end.
Definition ts_gtb (a b : Timestamp) : bool :=
  match ts_compare a b with Gt => true | _ => false end.
Definition ts_leb (a b : Timestamp) : bool := negb (ts_gtb a b).
Definition ts_geb (a b : Timestamp) : bool := negb (ts_ltb a b).

(** [pd.to_datetime] of a ['%Y-%m-%d'] text. *)
Definition to_datetime (d : Date) : Timestamp := mkTimestamp d 0.

Fixpoint zeros (n : nat) : string :=
  match n with
  | O => EmptyString
  | S k => String "0" (zeros k)
  end.

Definition zfill (width : nat) (s : string) : string :=
  zeros (width - String.length s) ++ s.

(** [strftime('%Y-%m-%d')] *)
Definition strftime_Ymd (d : Date) : string :=
  zfill 4 (Py.str (year d)) ++ "-" ++ zfill 2 (Py.str (month d)) ++ "-" ++
  zfill 2 (Py.str (day d)).

(** ** The calendar table *)

(** One row of [self.df] after [clean_data]; the fields are its columns.
    [delivery_month] and [month_name] are missing ([None]) for a code that
    [parse_contract] does not recognise. *)
Record Row := mkRow {
  TFM_Code : string;
  TFM_Code_original : string;
  delivery_month : option string;
  contract_month : string;
  expiry_date : Date;
  month_name : option string;
  contract_year : Z
}.

Inductive SecurityType := SPECIFIC | GENERIC | MONTHLY_GENERIC | SPREAD.

(** A truthy [point_in_time]: one date, or a [(start_date, end_date)] pair. *)
Inductive PointInTime :=
| At (t : Timestamp)
| Between (start_date end_date : Timestamp).

(** [result.attrs['metadata']] of a monthly-generic result. *)
Record MonthInfo := mkMonthInfo { info_month_name : string; info_month_abbr : string }.
Record YearExpiry := mkYearExpiry { ye_year : Z; ye_expiry_date : Date }.

Inductive Metadata :=
| FullMetadata (expired_contracts : list YearExpiry)
               (next_available : option YearExpiry) (month_info : MonthInfo)
| BasicMetadata (month_info : MonthInfo).

(** The one-row frame built by [query_spread] and its metadata. *)
Record SpreadRow := mkSpreadRow {
  spread_code : string;
  contract1_code : string;
  contract1_expiry : Date;
  contract2_code : string;
  contract2_expiry : Date;
  spread_type : string
}.
Record Leg := mkLeg { leg_code : string; leg_month : string; leg_year : Z }.
Record SpreadMetadata := mkSpreadMetadata {
  meta_spread_type : string; leg1 : Leg; leg2 : Leg
}.

(** What a query returns: [pd.DataFrame()] (no columns, no rows), a frame
    over the calendar columns, or the spread frame. *)
Inductive DataFrame :=
| EmptyDataFrame
| CalendarFrame (rows : list Row) (attrs : option Metadata)
| SpreadFrame (row : SpreadRow) (attrs : SpreadMetadata).

(** [frame.empty] *)
Definition empty (f : DataFrame) : bool :=
  match f with
  | EmptyDataFrame => true
  | CalendarFrame rows _ => match rows with [] => true | _ => false end
  | SpreadFrame _ _ => false
  end.

Definition frame_rows (f : DataFrame) : list Row :=
  match f with
  | CalendarFrame rows _ => rows
  | _ => []
  end.

Definition len {A : Type} (l : list A) : Z := Z.of_nat (List.length l).

(** ** [sort_values]: ascending sort on one column

    The result is an ascending arrangement of the rows.  Among rows of
    equal key pandas' default quicksort fixes no order; here they stay in
    row order. *)

Section SortValues.
Context {K : Type} (leb : K -> K -> bool) (column : Row -> K).

Fixpoint insert_row (r : Row) (l : list Row) : list Row :=
  match l with
  | [] => [r]
  | h :: t => if leb (column r) (column h) then r :: l else h :: insert_row r t
  end.

Fixpoint sort_values (l : list Row) : list Row :=
  match l with
  | [] => []
  | r :: t => insert_row r (sort_values t)
  end.
End SortValues.

(** ** The world of a [DataStore] method *)

Record World := mkWorld { self_df : list Row; stdout : list string }.

Definition M (A : Type) : Type := World -> A * World.

Definition ret {A : Type} (a : A) : M A := fun w => (a, w).
Definition bind {A B : Type} (m : M A) (f : A -> M B) : M B :=
  fun w => f (fst (m w)) (snd (m w)).

Notation "x <- m ;; k" := (bind m (fun x => k))
  (at level 61, m at next level, right associativity).
Notation "m ;;; k" := (bind m (fun _ => k))
  (at level 61, right associativity).

(** Reading the attribute [self.df]. *)
Definition get_df : M (list Row) := fun w => (self_df w, w).

Definition print (line : string) : M unit :=
  fun w => (tt, mkWorld (self_df w) (stdout w ++ [line])).

Fixpoint for_each {A : Type} (l : list A) (body : A -> M unit) : M unit :=
  match l with
  | [] => ret tt
  | a :: l' => body a ;;; for_each l' body
  end.

Definition returned {A : Type} (m : M A) (w : World) : A := fst (m w).
Definition printed {A : Type} (m : M A) (w : World) : list string := stdout (snd (m w)).
Definition table_after {A : Type} (m : M A) (w : World) : list Row := self_df (snd (m w)).

(** ** Frames around the calendar *)

(** One row of the calendar file as [pd.read_csv] and [pd.to_datetime]
    hand it to [clean_data]: the code text and the two dates. *)
Record RawRow := mkRawRow {
  raw_TFM_Code : string;
  raw_contract_month : Date;
  raw_expiry_date : Date
}.

(** One intraday bar; [price] is the type of the OHLCV numbers. *)
Record Bar (price : Type) := mkBar {
  symbol : string;
  bar_Timestamp : Timestamp;
  bar_Date : Date;
  bar_Time : string;
  OPEN : price;
  HIGH : price;
  LOW : price;
  CLOSE : price;
  VOLUME : price
}.
Arguments mkBar {price}.
Arguments symbol {price}.
Arguments bar_Timestamp {price}.
Arguments bar_Date {price}.
Arguments bar_Time {price}.
Arguments OPEN {price}.
Arguments HIGH {price}.
Arguments LOW {price}.
Arguments CLOSE {price}.
Arguments VOLUME {price}.

(** One row of the frame [get_spread_prices] returns ([final_columns]). *)
Record SpreadBar (price : Type) := mkSpreadBar {
  px_Timestamp : Timestamp;
  px_Date : Date;
  px_Time : string;
  px_OPEN : price;
  px_HIGH : price;
  px_LOW : price;
  px_CLOSE : price;
  px_VOLUME : price;
  px_symbol : string;
  px_spread_code : string;
  px_spread_type : string;
  px_contract1_code : string;
  px_contract2_code : string
}.
Arguments mkSpreadBar {price}.
Arguments px_Timestamp {price}.
Arguments px_Date {price}.
Arguments px_Time {price}.
Arguments px_OPEN {price}.
Arguments px_HIGH {price}.
Arguments px_LOW {price}.
Arguments px_CLOSE {price}.
Arguments px_VOLUME {price}.
Arguments px_symbol {price}.
Arguments px_spread_code {price}.
Arguments px_spread_type {price}.
Arguments px_contract1_code {price}.
Arguments px_contract2_code {price}.

(** What [get_spread_prices] returns: [pd.DataFrame()] or the price rows. *)
Inductive PricesFrame (price : Type) :=
| NoPrices
| Prices (rows : list (SpreadBar price)).
Arguments NoPrices {price}.
Arguments Prices {price}.

Definition ts_eqb (a b : Timestamp) : bool :=
  match ts_compare a b with Eq => true | _ => false end.

(** [strftime('%Y-%m')] *)
Definition strftime_Ym (d : Date) : string :=
  zfill 4 (Py.str (year d)) ++ "-" ++ zfill 2 (Py.str (month d)).

(** ** [DataStore] *)

Module DataStore.
Import Py.

Definition month_map : list (string * string) :=
  [("JAN", "January"); ("FEB", "February"); ("MAR", "March"); ("APR", "April");
   ("MAY", "May"); ("JUN", "June"); ("JUL", "July"); ("AUG", "August");
   ("SEP", "September"); ("OCT", "October"); ("NOV", "November"); ("DEC", "December")].

(** [clean_data], the [TFM_Code] column: every occurrence of the source
    prefix is removed ([str.replace] with [regex=False]). *)
Definition clean_TFM_Code (raw : string) : string :=
  replace "ENDEX::F:" EmptyString None raw.

(** The frame and reference date left by the point-in-time step that opens
    [query]. *)
Definition apply_point_in_time (point_in_time : option PointInTime)
    (result_df : list Row) : option Timestamp * list Row :=
  match point_in_time with
  | Some (Between start_date end_date) =>
      (Some start_date,
       filter (fun r => (ts_geb (to_datetime (expiry_date r)) start_date &&
                         ts_leb (to_datetime (expiry_date r)) end_date)%bool)
              result_df)
  | Some (At t) =>
      (Some t, filter (fun r => ts_geb (to_datetime (expiry_date r)) t) result_df)
  | None => (None, result_df)
  end.

Definition month_is (name : string) (r : Row) : bool :=
  match month_name r with
  | Some m => String.eqb m name
  | None => false
  end.

(** The body of [query]; [query_spread] is the method the last branch
    delegates to. *)
Definition query_with (query_spread : string -> option PointInTime -> M DataFrame)
    (security : string) (security_type : SecurityType)
    (point_in_time : option PointInTime) : M DataFrame :=
  df <- get_df ;;
  let '(reference_date, result_df) := apply_point_in_time point_in_time df in
  match security_type with
  | SPECIFIC =>
      let clean_security := replace "ENDEX::F:" EmptyString (Some 1%nat) security in
      ret (CalendarFrame
             (filter (fun r => String.eqb (TFM_Code r) clean_security) result_df) None)
  | GENERIC =>
      match Re.match_generic security with
      | Some group1 =>
          let sequence_number := int group1 in
          ret (CalendarFrame
                 (slice (sequence_number - 1) sequence_number
                    (sort_values String.leb contract_month result_df)) None)
      | None => ret EmptyDataFrame
      end
  | MONTHLY_GENERIC =>
      let no_match :=
        print ("Could not match " ++ security ++ " as a monthly generic code") ;;;
        ret EmptyDataFrame in
      match Re.match_monthly security with
      | Some (month_abbr, sequence_str) =>
          let sequence_number := int sequence_str in
          let month_abbr := upper month_abbr in
          match dict_get month_map month_abbr with
          | Some month_name =>
              print ("Looking for " ++ month_name ++ " contract, sequence "
                     ++ str sequence_number) ;;;
              let month_info := mkMonthInfo month_name month_abbr in
              let monthly_df := filter (month_is month_name) result_df in
              print ("Found " ++ str (len monthly_df) ++ " " ++ month_name
                     ++ " contracts") ;;;
              match reference_date with
              | Some reference_date =>
                  let reference_year := year (date reference_date) in
                  let valid_contracts :=
                    sort_values Z.leb contract_year
                      (filter (fun r => ts_gtb (to_datetime (expiry_date r)) reference_date)
                              monthly_df) in
                  print ("Found " ++ str (len valid_contracts)
                         ++ " valid (non-expired) contracts for " ++ month_name) ;;;
                  for_each valid_contracts (fun row =>
                    print ("  - " ++ TFM_Code row ++ " expires on "
                           ++ strftime_Ymd (expiry_date row))) ;;;
                  let current_year_contract :=
                    filter (fun r => contract_year r =? reference_year) monthly_df in
                  expired_contracts <-
                    match current_year_contract with
                    | first :: _ =>
                        let current_year_expiry := to_datetime (expiry_date first) in
                        if ts_ltb current_year_expiry reference_date then
                          print ("NOTE: " ++ month_name ++ " " ++ str reference_year
                                 ++ " contract has expired on "
                                 ++ strftime_Ymd (date current_year_expiry)) ;;;
                          ret [mkYearExpiry reference_year (date current_year_expiry)]
                        else ret []
                    | [] => ret []
                    end ;;
                  if len valid_contracts >=? sequence_number then
                    let result := slice (sequence_number - 1) sequence_number
                                    valid_contracts in
                    next_available <-
                      match result with
                      | first :: _ =>
                          print ("Using " ++ month_name ++ " " ++ str (contract_year first)
                                 ++ " (expires on " ++ strftime_Ymd (expiry_date first)
                                 ++ ")") ;;;
                          ret (Some (mkYearExpiry (contract_year first) (expiry_date first)))
                      | [] => ret None
                      end ;;
                    ret (CalendarFrame result
                           (Some (FullMetadata expired_contracts next_available month_info)))
                  else
                    print ("WARNING: Not enough valid contracts for " ++ month_name
                           ++ " (sequence " ++ str sequence_number ++ "). Only found "
                           ++ str (len valid_contracts) ++ ".") ;;;
                    ret EmptyDataFrame
              | None =>
                  let sorted_df := sort_values Z.leb contract_year monthly_df in
                  if len sorted_df >=? sequence_number then
                    ret (CalendarFrame
                           (slice (sequence_number - 1) sequence_number sorted_df)
                           (Some (BasicMetadata month_info)))
                  else no_match
              end
          | None => no_match
          end
      | None => no_match
      end
  | SPREAD => query_spread security point_in_time
  end.

(** [query_spread]; [query] is the method it calls for the first leg. *)
Definition query_spread_with
    (query : string -> SecurityType -> option PointInTime -> M DataFrame)
    (spread_code : string) (point_in_time : option PointInTime) : M DataFrame :=
  match Re.match_spread spread_code with
  | None =>
      print ("Invalid spread code format: " ++ spread_code) ;;;
      ret EmptyDataFrame
  | Some (month1_abbr, month2_abbr, seq_num) =>
      let sequence_number := int seq_num in
      match dict_get month_map month1_abbr, dict_get month_map month2_abbr with
      | Some month1_full, Some month2_full =>
          print ("Processing spread " ++ spread_code ++ ": " ++ month1_full ++ "-"
                 ++ month2_full ++ " (sequence " ++ str sequence_number ++ ")") ;;;
          let month1_query := "TFM" ++ month1_abbr ++ str sequence_number in
          contract1 <- query month1_query MONTHLY_GENERIC point_in_time ;;
          if empty contract1 then
            print ("Could not find first leg of spread: " ++ month1_query) ;;;
            ret EmptyDataFrame
          else
            match contract1 with
            | CalendarFrame (first1 :: _) _ =>
                let year1 := contract_year first1 in
                let month_order := map snd month_map in
                let month1_idx := list_index month1_full month_order in
                let month2_idx := list_index month2_full month_order in
                year2 <-
                  (if month2_idx <=? month1_idx then
                     let year2 := year1 + 1 in
                     print ("Second leg will use next year: " ++ str year2
                            ++ " (based on calendar order)") ;;;
                     ret year2
                   else ret year1) ;;
                df <- get_df ;;
                let month2_contracts := filter (month_is month2_full) df in
                let contract2_candidates :=
                  filter (fun r => contract_year r =? year2) month2_contracts in
                match slice 0 1 contract2_candidates with
                | [] =>
                    print ("Could not find second leg for spread: " ++ month2_full
                           ++ " " ++ str year2) ;;;
                    ret EmptyDataFrame
                | contract2 :: _ =>
                    print ("Spread legs: " ++ TFM_Code first1 ++ " and "
                           ++ TFM_Code contract2) ;;;
                    let label := month1_abbr ++ "-" ++ month2_abbr in
                    ret (SpreadFrame
                           (mkSpreadRow spread_code (TFM_Code first1) (expiry_date first1)
                              (TFM_Code contract2) (expiry_date contract2) label)
                           (mkSpreadMetadata label
                              (mkLeg (TFM_Code first1) month1_full year1)
                              (mkLeg (TFM_Code contract2) month2_full year2)))
                end
            | _ =>
                print "Could not determine year for first contract leg" ;;;
                ret EmptyDataFrame
            end
      | _, _ =>
          print ("Invalid month abbreviation in spread code: " ++ spread_code) ;;;
          ret EmptyDataFrame
      end
  end.

(** The first leg of a spread is always asked as [MONTHLY_GENERIC], so the
    call of [query] made inside [query_spread] never reaches the [SPREAD]
    branch again; that nested delegate is the default fallback of [query]. *)
Definition query_spread (spread_code : string) (point_in_time : option PointInTime)
    : M DataFrame :=
  query_spread_with (query_with (fun _ _ => ret EmptyDataFrame))
    spread_code point_in_time.

Definition query (security : string) (security_type : SecurityType)
    (point_in_time : option PointInTime) : M DataFrame :=
  query_with query_spread security security_type point_in_time.

Definition query_specific (tfm_code : string) : M DataFrame :=
  query tfm_code SPECIFIC None.

Definition query_generic (sequence_number : Z) : M DataFrame :=
  query ("TFM" ++ str sequence_number) GENERIC None.

(** The parse steps of the [MONTHLY_GENERIC] branch taken on their own:
    the regex, [int] of the digits, [upper] of the letters, and the test
    [month_abbr in month_map]. *)
Definition parse_monthly_generic (security : string) : option (string * Z) :=
  match Re.match_monthly security with
  | Some (month_abbr, sequence_str) =>
      let month_abbr := upper month_abbr in
      match dict_get month_map month_abbr with
      | Some _ => Some (month_abbr, int sequence_str)
      | None => None
      end
  | None => None
  end.

(** The parse steps that open [query_spread]. *)
Definition parse_spread (spread_code : string) : option (string * string * Z) :=
  match Re.match_spread spread_code with
  | Some (month1_abbr, month2_abbr, seq_num) =>
      match dict_get month_map month1_abbr, dict_get month_map month2_abbr with
      | Some _, Some _ => Some (month1_abbr, month2_abbr, int seq_num)
      | _, _ => None
      end
  | None => None
  end.

(** The frame the [MONTHLY_GENERIC] branch ranks: [valid_contracts] when a
    reference date is given, [sorted_df] otherwise. *)
Definition monthly_candidates (table : list Row) (month_name : string)
    (point_in_time : option PointInTime) : list Row :=
  let '(reference_date, result_df) := apply_point_in_time point_in_time table in
  let monthly_df := filter (month_is month_name) result_df in
  match reference_date with
  | Some reference_date =>
      sort_values Z.leb contract_year
        (filter (fun r => ts_gtb (to_datetime (expiry_date r)) reference_date)
                monthly_df)
  | None => sort_values Z.leb contract_year monthly_df
  end.

(** [reference_date] as [query] sets it from a truthy [point_in_time]. *)
Definition reference_date_of (point_in_time : PointInTime) : Timestamp :=
  match point_in_time with
  | At t => t
  | Between start_date _ => start_date
  end.

(** *** Loading: [parse_contract] and [clean_data] *)

(** [month_map] of [parse_contract]: the futures month letters. *)
Definition letter_month_map : list (string * string) :=
  [("F", "January"); ("G", "February"); ("H", "March"); ("J", "April");
   ("K", "May"); ("M", "June"); ("N", "July"); ("Q", "August");
   ("U", "September"); ("V", "October"); ("X", "November"); ("Z", "December")].

Definition parse_contract (tfm_code : string) : option string :=
  match Re.match_contract tfm_code with
  | Some (month_code, year) =>
      match dict_get letter_month_map month_code with
      | Some month => Some (month ++ " 20" ++ year)
      | None => None
      end
  | None => None
  end.

(** [pd.to_datetime(delivery_month, errors='coerce').dt.strftime('%B')] on
    the texts [parse_contract] writes, [<Month> <year>]: the month is read
    by its English name and written back by [%B]; any other text is
    coerced to a missing value. *)
Definition month_name_of (delivery_month : option string) : option string :=
  match delivery_month with
  | Some text =>
      let '(name, rest) := span (fun c => negb (Ascii.eqb c " ")) text in
      match rest with
      | String _ year_text =>
          if (existsb (String.eqb name) (map snd month_map) &&
              negb (String.eqb year_text EmptyString) &&
              all_chars is_digit year_text)%bool
          then Some name else None
      | EmptyString => None
      end
  | None => None
  end.

Definition clean_row (raw : RawRow) : Row :=
  let code := clean_TFM_Code (raw_TFM_Code raw) in
  let delivery_month := parse_contract code in
  mkRow code (raw_TFM_Code raw) delivery_month
    (strftime_Ym (raw_contract_month raw)) (raw_expiry_date raw)
    (month_name_of delivery_month) (year (raw_contract_month raw)).

(** [clean_data] on the frame read from the calendar file; the result is
    the [self.df] of a store built from that file. *)
Definition clean_data (df : list RawRow) : list Row := map clean_row df.

(** *** [query_monthly_generic] *)

Definition month_abbr_map : list (string * string) :=
  [("January", "JAN"); ("February", "FEB"); ("March", "MAR"); ("April", "APR");
   ("May", "MAY"); ("June", "JUN"); ("July", "JUL"); ("August", "AUG");
   ("September", "SEP"); ("October", "OCT"); ("November", "NOV"); ("December", "DEC")].

Definition query_monthly_generic (month_name : string) (sequence_number : Z)
    : M DataFrame :=
  let month_abbr :=
    match dict_get month_abbr_map month_name with
    | Some abbr => abbr
    | None => upper (substring 0 3 month_name)
    end in
  query ("TFM" ++ month_abbr ++ str sequence_number) MONTHLY_GENERIC None.

(** *** [get_spread_prices] *)

Section SpreadPrices.
Context {price : Type}.
(** The arithmetic of the price columns: [a - b], [a + b] and [a / 2]. *)
Context (sub add : price -> price -> price) (half : price -> price).

(** [pd.merge(left, right, on='Timestamp')]: the inner join, in the order
    of the left rows. *)
Definition merge_on_Timestamp (left right : list (Bar price))
    : list (Bar price * Bar price) :=
  flat_map (fun l =>
              map (fun r => (l, r))
                  (filter (fun r => ts_eqb (bar_Timestamp l) (bar_Timestamp r)) right))
           left.

(** One row of [spread_data] restricted to [final_columns]. *)
Definition spread_bar (spread : SpreadRow) (legs : Bar price * Bar price)
    : SpreadBar price :=
  let '(b1, b2) := legs in
  mkSpreadBar (bar_Timestamp b1) (bar_Date b1) (bar_Time b1)
    (sub (OPEN b1) (OPEN b2)) (sub (HIGH b1) (HIGH b2))
    (sub (LOW b1) (LOW b2)) (sub (CLOSE b1) (CLOSE b2))
    (half (add (VOLUME b1) (VOLUME b2)))
    (spread_code spread) (spread_code spread) (spread_type spread)
    (contract1_code spread) (contract2_code spread).

(** The intraday frame is taken with its [Timestamp] column, as
    [load_intraday_data] builds it. *)
Definition get_spread_prices (spread_result : DataFrame)
    (intraday_data : list (Bar price)) : M (PricesFrame price) :=
  match spread_result with
  | SpreadFrame spread _ =>
      let contract1_code := contract1_code spread in
      let contract2_code := contract2_code spread in
      print ("Calculating spread prices for " ++ contract1_code ++ " - "
             ++ contract2_code) ;;;
      let contract1_data :=
        filter (fun b => String.eqb (symbol b) contract1_code) intraday_data in
      let contract2_data :=
        filter (fun b => String.eqb (symbol b) contract2_code) intraday_data in
      match contract1_data, contract2_data with
      | [], _ =>
          print ("No intraday data found for first leg: " ++ contract1_code) ;;;
          ret NoPrices
      | _ :: _, [] =>
          print ("No intraday data found for second leg: " ++ contract2_code) ;;;
          ret NoPrices
      | _ :: _, _ :: _ =>
          match merge_on_Timestamp contract1_data contract2_data with
          | [] =>
              print "No matching timestamps between the two contracts" ;;;
              ret NoPrices
          | spread_data => ret (Prices (map (spread_bar spread) spread_data))
          end
      end
  | _ =>
      print "Invalid spread result provided" ;;;
      ret NoPrices
  end.

End SpreadPrices.

End DataStore.

Import Py DataStore.

(** ** Vocabulary of the statements *)

(** A frame is in ascending order of a column. *)
Definition ascending {K : Type} (leb : K -> K -> bool) (column : Row -> K)
    (a b : Row) : Prop :=
  leb (column a) (column b) = true.

(** A method leaves [self.df] as it found it. *)
Definition keeps_table {A : Type} (m : M A) : Prop :=
  forall w, self_df (snd (m w)) = self_df w.

(** What a method returns, and the table it leaves, depend on the world
    through [self.df] alone (not on what is already on the console). *)
Definition table_determined {A : Type} (m : M A) : Prop :=
  forall w1 w2, self_df w1 = self_df w2 ->
  fst (m w1) = fst (m w2) /\ self_df (snd (m w1)) = self_df (snd (m w2)).


(** The twelve keys of [month_map]. *)
Definition is_month_abbr (m : string) : Prop := In m (map fst month_map).

(** [month_order.index(name)] in [query_spread]. *)
Definition month_idx (full_name : string) : Z :=
  list_index full_name (map snd month_map).

(** The year [query_spread] asks of the second leg. *)
Definition second_leg_year (month1_full month2_full : string) (year1 : Z) : Z :=
  if month_idx month2_full <=? month_idx month1_full then year1 + 1 else year1.

(** The code text of a monthly generic, as [query_monthly_generic] and
    [query_spread] write it: [f"TFM{month_abbr}{sequence_number}"]. *)
Definition monthly_code (month_abbr : string) (sequence_number : Z) : string :=
  "TFM" ++ month_abbr ++ str sequence_number.

(** Two texts are equal up to letter case. *)
Definition same_modulo_case (a b : string) : Prop := upper a = upper b.

(** A monthly-generic text of ASCII characters whose digits [0]..[9] have
    no leading zero and are followed by nothing. *)
Definition canonical_monthly (security : string) : bool :=
  match strip_prefix "TFM" security with
  | Some rest =>
      let '(_, rest1) := span is_alpha rest in
      let '(digits, tail) := span is_digit rest1 in
      (String.eqb tail EmptyString &&
       match digits with
       | String "0" (String _ _) => false
       | _ => true
       end)%bool
  | None => false
  end.

(** The frame [query_spread] builds from its two legs. *)
Definition spread_frame (spread_code month1_abbr month2_abbr month1_full month2_full : string)
    (first1 contract2 : Row) (year2 : Z) : DataFrame :=
  SpreadFrame
    (mkSpreadRow spread_code (TFM_Code first1) (expiry_date first1)
       (TFM_Code contract2) (expiry_date contract2) (month1_abbr ++ "-" ++ month2_abbr))
    (mkSpreadMetadata (month1_abbr ++ "-" ++ month2_abbr)
       (mkLeg (TFM_Code first1) month1_full (contract_year first1))
       (mkLeg (TFM_Code contract2) month2_full year2)).

(** [df.sort_values('contract_month')] as [query] calls it. *)
Definition sorted_by_contract_month (table : list Row) : list Row :=
  sort_values String.leb contract_month table.

(** Following the specification's words, "sorting the table ascending" by
    a column: [sorted] holds the rows of [table], each as often, in
    ascending order of the column.  Rows of equal key may come in any
    order. *)
Definition ascending_sort_of {K : Type} (leb : K -> K -> bool) (column : Row -> K)
    (sorted table : list Row) : Prop :=
  Permutation sorted table /\ Sorted (ascending leb column) sorted.

(** "Taking the (n-1)-indexed row" of a sorted frame, as a frame of at
    most one row. *)
Definition row_at (sorted : list Row) (n : Z) : list Row :=
  match nth_error sorted (Z.to_nat (n - 1)) with
  | Some r => [r]
  | None => []
  end.

(** Following the specification's words for the months of a spread: the
    calendar months by abbreviation, with the full name and the calendar
    index, January = 0 .. December = 11. *)
Definition calendar_months : list (string * (string * Z)) :=
  [("JAN", ("January", 0)); ("FEB", ("February", 1)); ("MAR", ("March", 2));
   ("APR", ("April", 3)); ("MAY", ("May", 4)); ("JUN", ("June", 5));
   ("JUL", ("July", 6)); ("AUG", ("August", 7)); ("SEP", ("September", 8));
   ("OCT", ("October", 9)); ("NOV", ("November", 10)); ("DEC", ("December", 11))].

Fixpoint lookup_month (months : list (string * (string * Z))) (month_abbr : string)
    : option (string * Z) :=
  match months with
  | [] => None
  | (k, v) :: rest => if String.eqb k month_abbr then Some v else lookup_month rest month_abbr
  end.

Definition calendar_month (month_abbr : string) : option (string * Z) :=
  lookup_month calendar_months month_abbr.

(** What [query_monthly_generic] hands back for the rows it selected:
    the rows with the month as their only metadata, or [pd.DataFrame()]
    when there are none. *)
Definition month_frame (name abbr : string) (rows : list Row) : DataFrame :=
  match rows with
  | [] => EmptyDataFrame
  | _ :: _ => CalendarFrame rows (Some (BasicMetadata (mkMonthInfo name abbr)))
  end.

(** A generic text the grammar [TFM(\d+)] rejects. *)
Definition malformed_generic (security : string) : Prop :=
  Re.match_generic security = None.

(** ** Calendar tables used in the examples *)

Definition apr25 : Row :=
  mkRow "TFM\J25" "ENDEX::F:TFM\J25" (Some "April 2025") "2025-04"
    (mkDate 2025 4 15) (Some "April") 2025.
Definition apr26 : Row :=
  mkRow "TFM\J26" "ENDEX::F:TFM\J26" (Some "April 2026") "2026-04"
    (mkDate 2026 4 15) (Some "April") 2026.
Definition dec25 : Row :=
  mkRow "TFM\Z25" "ENDEX::F:TFM\Z25" (Some "December 2025") "2025-12"
    (mkDate 2025 12 19) (Some "December") 2025.
Definition jun26 : Row :=
  mkRow "TFM\M26" "ENDEX::F:TFM\M26" (Some "June 2026") "2026-06"
    (mkDate 2026 6 17) (Some "June") 2026.
Definition jan25 : Row :=
  mkRow "TFM\F25" "ENDEX::F:TFM\F25" (Some "January 2025") "2025-01"
    (mkDate 2024 12 30) (Some "January") 2025.

Definition on_day (y m d : Z) : option PointInTime :=
  Some (At (mkTimestamp (mkDate y m d) 0)).

(** The April scenario: April 2025 and April 2026. *)
Definition april_world : World := mkWorld [apr25; apr26] [].

(** A small calendar, not in date order. *)
Definition sample_world : World := mkWorld [apr26; dec25; apr25; jun26] [].

(** The code text of a spread: [TFM<Mon1><Mon2><n>]. *)
Definition spread_code_text (month1_abbr month2_abbr : string) (n : Z) : string :=
  "TFM" ++ month1_abbr ++ month2_abbr ++ str n.

(** The rows of a price frame; [pd.DataFrame()] has none. *)
Definition prices_rows {price : Type} (f : PricesFrame price) : list (SpreadBar price) :=
  match f with
  | Prices rows => rows
  | NoPrices => []
  end.

(** A text without a line break: what [.*] can run over. *)
Definition no_newline (s : string) : bool :=
  all_chars (fun c => negb (Ascii.eqb c "010"%char)) s.

(** The calendar file of the examples, as read, and the store built from
    it. *)
Definition raw_calendar : list RawRow :=
  [mkRawRow "ENDEX::F:TFM\J25" (mkDate 2025 4 1) (mkDate 2025 3 28);
   mkRawRow "ENDEX::F:TFM\Z25" (mkDate 2025 12 1) (mkDate 2025 11 27);
   mkRawRow "ENDEX::F:TFM\J26" (mkDate 2026 4 1) (mkDate 2026 3 30);
   mkRawRow "TFM-weekly" (mkDate 2025 4 1) (mkDate 2025 4 4)].

Definition loaded_world : World := mkWorld (clean_data raw_calendar) [].

Definition dec26 : Row :=
  mkRow "TFM\Z26" "ENDEX::F:TFM\Z26" (Some "December 2026") "2026-12"
    (mkDate 2026 11 27) (Some "December") 2026.

Definition december_world : World := mkWorld [dec25; dec26] [].

(** A calendar with a January and an April of one year, and a December
    followed by a June and a December of the next. *)
Definition rollover_world : World :=
  mkWorld [jan25; apr25; dec25; jun26; dec26] [].

(** A calendar file whose one code carries the source prefix inside
    itself, and the store built from it. *)
Definition nested_prefix_calendar : list RawRow :=
  [mkRawRow "ENDENDEX::F:EX::F:TFM\J25" (mkDate 2025 4 1) (mkDate 2025 3 28)].

Definition nested_prefix_world : World :=
  mkWorld (clean_data nested_prefix_calendar) [].

(** Two contracts with one [contract_month], and two Aprils of one year. *)
Definition apr25_bis : Row :=
  mkRow "TFM\J25b" "ENDEX::F:TFM\J25b" (Some "April 2025") "2025-04"
    (mkDate 2025 4 16) (Some "April") 2025.

Definition tied_world : World := mkWorld [apr25; apr25_bis; dec25] [].

(** Intraday bars with integer prices. *)
Definition sample_bars : list (Bar Z) :=
  [mkBar "TFM\Z25" (mkTimestamp (mkDate 2025 1 2) 9) (mkDate 2025 1 2) "09:00" 40 42 39 41 100;
   mkBar "TFM\M26" (mkTimestamp (mkDate 2025 1 2) 9) (mkDate 2025 1 2) "09:00" 30 31 29 30 50;
   mkBar "TFM\Z25" (mkTimestamp (mkDate 2025 1 2) 10) (mkDate 2025 1 2) "10:00" 41 43 40 42 80;
   mkBar "TFM\J25" (mkTimestamp (mkDate 2025 1 2) 10) (mkDate 2025 1 2) "10:00" 35 36 34 35 70].

Definition dec_jun_spread : DataFrame :=
  spread_frame "TFMDECJUN1" "DEC" "JUN" "December" "June" dec25 jun26 2026.

(** * Facts about the text built-ins *)

Section TextFacts.

Lemma string_of_uint_digits (u : uint) :
  all_chars is_digit (NilEmpty.string_of_uint u) = true.
Proof. induction u; simpl; auto. Qed.

Lemma str_nonneg_shape (n : Z) :
  0 <= n ->
  exists c s, str n = String c s /\ is_digit c = true /\ all_chars is_digit s = true.
Proof.
  intros Hn. unfold str.
  destruct n as [|p|p]; [| |lia].
  - exists "0"%char, EmptyString. auto.
  - simpl. pose proof (DecimalPos.Unsigned.to_uint_nonnil p) as Hnil.
    pose proof (string_of_uint_digits (Pos.to_uint p)) as Hd.
    unfold NilZero.string_of_uint.
    destruct (Pos.to_uint p) eqn:E; try congruence;
      simpl in Hd |- *; eexists _, _; (split; [reflexivity|]); split;
      first [reflexivity | assumption].
Qed.

Lemma str_neg_shape (n : Z) :
  n < 0 -> exists s, str n = String "-" s.
Proof.
  intros Hn. destruct n as [|p|p]; try lia.
  unfold str. simpl. eauto.
Qed.

Lemma int_str (n : Z) : int (str n) = n.
Proof.
  unfold int, str.
  rewrite NilZero.isi.
  - apply DecimalZ.of_to.
  - destruct n; simpl; try discriminate.
    intros [= H]. now apply (DecimalPos.Unsigned.to_uint_nonnil p).
  - destruct n; simpl; try discriminate.
    intros [= H]. now apply (DecimalPos.Unsigned.to_uint_nonnil p).
Qed.

Lemma digit_not_minus (c : ascii) : is_digit c = true -> Ascii.eqb c "-" = false.
Proof.
  destruct c as [[|] [|] [|] [|] [|] [|] [|] [|]]; simpl; intros H;
    try discriminate H; reflexivity.
Qed.

Lemma digit_not_alpha (c : ascii) : is_digit c = true -> is_alpha c = false.
Proof.
  destruct c as [[|] [|] [|] [|] [|] [|] [|] [|]]; simpl; intros H;
    try discriminate H; reflexivity.
Qed.

Lemma alpha_not_digit (c : ascii) : is_alpha c = true -> is_digit c = false.
Proof.
  destruct c as [[|] [|] [|] [|] [|] [|] [|] [|]]; simpl; intros H;
    try discriminate H; reflexivity.
Qed.

Lemma uint_of_char_digit (c : ascii) (u : uint) :
  is_digit c = true -> exists u', uint_of_char c (Some u) = Some u'.
Proof.
  destruct c as [[|] [|] [|] [|] [|] [|] [|] [|]]; simpl; intros H;
    try discriminate H; eauto.
Qed.

Lemma uint_of_digits (s : string) :
  all_chars is_digit s = true -> exists u, NilEmpty.uint_of_string s = Some u.
Proof.
  induction s as [|c s IH]; simpl; intros H.
  - eauto.
  - apply andb_true_iff in H as [Hc Hs].
    destruct (IH Hs) as [u ->]. now apply uint_of_char_digit.
Qed.

(** [int] of a run of digits is a natural number. *)
Lemma int_digits_nonneg (s : string) :
  all_chars is_digit s = true -> 0 <= int s.
Proof.
  intros H. unfold int, NilZero.int_of_string.
  destruct s as [|c s]; [lia|].
  pose proof H as H'. simpl in H'. apply andb_true_iff in H' as [Hc _].
  rewrite (digit_not_minus _ Hc).
  destruct (uint_of_digits _ H) as [u Hu].
  unfold NilZero.uint_of_string. rewrite Hu. simpl.
  unfold Z.of_uint. lia.
Qed.

Lemma span_all (p : ascii -> bool) (s : string) :
  all_chars p (fst (span p s)) = true.
Proof.
  induction s as [|c s IH]; simpl; auto.
  destruct (p c) eqn:E; simpl; auto.
  destruct (span p s); simpl in *. now rewrite E.
Qed.

Lemma span_app (p : ascii -> bool) (a b : string) :
  all_chars p a = true ->
  span p (a ++ b) = (a ++ fst (span p b), snd (span p b)).
Proof.
  induction a as [|c a IH]; simpl; intros H.
  - now destruct (span p b).
  - apply andb_true_iff in H as [Hc Ha]. rewrite Hc, (IH Ha). reflexivity.
Qed.

Lemma span_whole (p : ascii -> bool) (s : string) :
  all_chars p s = true -> span p s = (s, EmptyString).
Proof.
  induction s as [|c s IH]; simpl; intros H; auto.
  apply andb_true_iff in H as [Hc Hs]. now rewrite Hc, (IH Hs).
Qed.

Lemma span_stop (p : ascii -> bool) (c : ascii) (s : string) :
  p c = false -> span p (String c s) = (EmptyString, String c s).
Proof. intros H. simpl. now rewrite H. Qed.

Lemma append_empty_r (s : string) : s ++ EmptyString = s.
Proof. induction s; simpl; congruence. Qed.

Lemma append_assoc (a b c : string) : (a ++ b) ++ c = a ++ (b ++ c).
Proof. induction a; simpl; congruence. Qed.

Lemma upper_app (a b : string) : upper (a ++ b) = upper a ++ upper b.
Proof. induction a; simpl; congruence. Qed.

Lemma upper_char_digit (c : ascii) : is_digit c = true -> upper_char c = c.
Proof.
  destruct c as [[|] [|] [|] [|] [|] [|] [|] [|]]; simpl; intros H;
    try discriminate H; reflexivity.
Qed.

Lemma upper_char_upper (c : ascii) : is_upper c = true -> upper_char c = c.
Proof.
  destruct c as [[|] [|] [|] [|] [|] [|] [|] [|]]; simpl; intros H;
    try discriminate H; reflexivity.
Qed.

Lemma upper_char_idem (c : ascii) : upper_char (upper_char c) = upper_char c.
Proof.
  destruct c as [[|] [|] [|] [|] [|] [|] [|] [|]]; reflexivity.
Qed.

Lemma upper_char_alpha (c : ascii) : is_alpha c = true -> is_alpha (upper_char c) = true.
Proof.
  destruct c as [[|] [|] [|] [|] [|] [|] [|] [|]]; simpl; intros H;
    try discriminate H; reflexivity.
Qed.

Lemma upper_digits (s : string) : all_chars is_digit s = true -> upper s = s.
Proof.
  induction s as [|c s IH]; simpl; intros H; auto.
  apply andb_true_iff in H as [Hc Hs]. now rewrite (upper_char_digit _ Hc), (IH Hs).
Qed.

Lemma upper_uppers (s : string) : all_chars is_upper s = true -> upper s = s.
Proof.
  induction s as [|c s IH]; simpl; intros H; auto.
  apply andb_true_iff in H as [Hc Hs]. now rewrite (upper_char_upper _ Hc), (IH Hs).
Qed.

Lemma upper_idem (s : string) : upper (upper s) = upper s.
Proof. induction s; simpl; auto. now rewrite upper_char_idem, IHs. Qed.

Lemma upper_alpha (s : string) :
  all_chars is_alpha s = true -> all_chars is_alpha (upper s) = true.
Proof.
  induction s as [|c s IH]; simpl; intros H; auto.
  apply andb_true_iff in H as [Hc Hs]. now rewrite (upper_char_alpha _ Hc), (IH Hs).
Qed.

Lemma upper_eq_empty (s : string) : upper s = EmptyString -> s = EmptyString.
Proof. destruct s; simpl; congruence. Qed.

End TextFacts.

(** * Facts about the regular expressions *)

Section RegexFacts.

Lemma match_generic_serialized (n : Z) :
  0 <= n -> Re.match_generic ("TFM" ++ str n) = Some (str n).
Proof.
  intros Hn. destruct (str_nonneg_shape n Hn) as (c & s & E & Hc & Hs).
  unfold Re.match_generic. simpl.
  assert (Hall : all_chars is_digit (str n) = true)
    by (rewrite E; simpl; now rewrite Hc, Hs).
  rewrite (span_whole _ _ Hall). now rewrite E.
Qed.

Lemma match_generic_negative (n : Z) :
  n < 0 -> Re.match_generic ("TFM" ++ str n) = None.
Proof.
  intros Hn. destruct (str_neg_shape n Hn) as (s & E).
  unfold Re.match_generic. simpl. now rewrite E.
Qed.

Lemma match_monthly_serialized (m : string) (n : Z) :
  m <> EmptyString -> all_chars is_alpha m = true -> 0 <= n ->
  Re.match_monthly ("TFM" ++ m ++ str n) = Some (m, str n).
Proof.
  intros Hm Ha Hn. destruct (str_nonneg_shape n Hn) as (c & s & E & Hc & Hs).
  unfold Re.match_monthly. simpl.
  rewrite (span_app _ _ _ Ha). rewrite E.
  rewrite (span_stop is_alpha c s (digit_not_alpha _ Hc)). simpl fst. simpl snd.
  rewrite append_empty_r.
  assert (Hall : all_chars is_digit (String c s) = true)
    by (simpl; now rewrite Hc, Hs).
  rewrite (span_whole _ _ Hall).
  destruct m; [congruence|]. reflexivity.
Qed.

Lemma match_monthly_negative (m : string) (n : Z) :
  all_chars is_alpha m = true -> n < 0 ->
  Re.match_monthly ("TFM" ++ m ++ str n) = None.
Proof.
  intros Ha Hn. destruct (str_neg_shape n Hn) as (s & E).
  unfold Re.match_monthly. simpl.
  rewrite (span_app _ _ _ Ha). rewrite E. simpl.
  now rewrite orb_true_r.
Qed.

Lemma strip_prefix_spec (lit s rest : string) :
  strip_prefix lit s = Some rest -> s = lit ++ rest.
Proof.
  revert s. induction lit as [|a lit IH]; simpl; intros s H.
  - now inversion H.
  - destruct s as [|b s]; [discriminate|].
    destruct (Ascii.eqb_spec a b); [subst|discriminate].
    now rewrite (IH _ H).
Qed.

Lemma span_spec (p : ascii -> bool) (s a b : string) :
  span p s = (a, b) ->
  s = a ++ b /\ all_chars p a = true /\ fst (span p b) = EmptyString.
Proof.
  revert a b. induction s as [|c s IH]; simpl; intros a b H.
  - inversion H. auto.
  - destruct (p c) eqn:E.
    + destruct (span p s) as [a' b'] eqn:Es. inversion H; subst.
      destruct (IH _ _ eq_refl) as (-> & Ha & Hb). simpl. rewrite E. auto.
    + inversion H; subst. simpl. rewrite E. auto.
Qed.

(** The groups of an accepted monthly-generic text. *)
Lemma match_monthly_groups (security letters digits : string) :
  Re.match_monthly security = Some (letters, digits) ->
  letters <> EmptyString /\ all_chars is_alpha letters = true /\
  digits <> EmptyString /\ all_chars is_digit digits = true /\
  exists rest, security = "TFM" ++ letters ++ digits ++ rest /\
               fst (span is_digit rest) = EmptyString.
Proof.
  unfold Re.match_monthly. intros H.
  destruct (strip_prefix "TFM" security) as [rest|] eqn:Es; [|discriminate].
  apply strip_prefix_spec in Es.
  destruct (span is_alpha rest) as [l r1] eqn:E1.
  destruct (span is_digit r1) as [dg r2] eqn:E2.
  destruct (String.eqb_spec l EmptyString); [discriminate|].
  destruct (String.eqb_spec dg EmptyString); [discriminate|].
  simpl in H. inversion H; subst l dg.
  apply span_spec in E1 as (-> & Hl & _).
  apply span_spec in E2 as (-> & Hd & Hr).
  repeat split; auto. exists r2. split; auto.
Qed.

(** The digit group of an accepted generic text. *)
Lemma match_generic_group (security digits : string) :
  Re.match_generic security = Some digits ->
  digits <> EmptyString /\ all_chars is_digit digits = true.
Proof.
  unfold Re.match_generic. intros H.
  destruct (strip_prefix "TFM" security) as [rest|]; [|discriminate].
  destruct (span is_digit rest) as [dg r] eqn:E.
  destruct (String.eqb_spec dg EmptyString); [discriminate|].
  inversion H; subst. apply span_spec in E as (_ & Hd & _). auto.
Qed.

Lemma parse_monthly_nonneg (security abbr : string) (n : Z) :
  parse_monthly_generic security = Some (abbr, n) -> 0 <= n.
Proof.
  unfold parse_monthly_generic. intros H.
  destruct (Re.match_monthly security) as [[l dg]|] eqn:E; [|discriminate].
  destruct (dict_get month_map (upper l)); [|discriminate].
  inversion H; subst.
  apply match_monthly_groups in E as (_ & _ & _ & Hd & _).
  now apply int_digits_nonneg.
Qed.

End RegexFacts.

(** * Facts about frames: slicing and sorting *)

Section FrameFacts.

Lemma firstn_1_skipn {A : Type} (k : nat) (l : list A) :
  firstn 1 (skipn k l) =
  match nth_error l k with Some a => [a] | None => [] end.
Proof.
  revert l. induction k as [|k IH]; intros [|a l]; simpl; auto.
  apply IH.
Qed.

(** [iloc[n-1:n]] for a sequence number [n >= 1]: the row at position
    [n-1], if there is one. *)
Lemma slice_nth {A : Type} (n : Z) (l : list A) :
  1 <= n ->
  slice (n - 1) n l =
  match nth_error l (Z.to_nat (n - 1)) with Some a => [a] | None => [] end.
Proof.
  intros Hn. unfold slice.
  destruct (n - 1 <? 0) eqn:E1; [apply Z.ltb_lt in E1; lia|].
  destruct (n <? 0) eqn:E2; [apply Z.ltb_lt in E2; lia|].
  destruct (Z_le_gt_dec n (Z.of_nat (List.length l))) as [Hle|Hgt].
  - replace (Z.min n (Z.of_nat (List.length l)) - Z.min (n - 1) (Z.of_nat (List.length l)))
      with 1 by lia.
    replace (Z.min (n - 1) (Z.of_nat (List.length l))) with (n - 1) by lia.
    apply firstn_1_skipn.
  - replace (Z.min (n - 1) (Z.of_nat (List.length l))) with (Z.of_nat (List.length l)) by lia.
    rewrite Nat2Z.id, skipn_all, firstn_nil.
    assert (Hnone : nth_error l (Z.to_nat (n - 1)) = None)
      by (apply nth_error_None; lia).
    now rewrite Hnone.
Qed.

(** [iloc[-1:0]], the slice taken for sequence number [0], is empty. *)
Lemma slice_zero {A : Type} (l : list A) : slice (0 - 1) 0 l = [].
Proof.
  unfold slice.
  change (0 - 1 <? 0) with true. change (0 <? 0) with false. cbv iota.
  set (len := Z.of_nat (List.length l)).
  replace (Z.to_nat (Z.min 0 len - Z.max (0 - 1 + len) 0)) with 0%nat by lia.
  reflexivity.
Qed.

Lemma slice_0_1 {A : Type} (l : list A) :
  slice 0 1 l = match l with [] => [] | a :: _ => [a] end.
Proof.
  change (slice 0 1 l) with (slice (1 - 1) 1 l).
  rewrite (slice_nth 1 l) by lia. destruct l; reflexivity.
Qed.

Lemma slice_seq_incl {A : Type} (n : Z) (l : list A) (a : A) :
  0 <= n -> In a (slice (n - 1) n l) ->
  1 <= n /\ nth_error l (Z.to_nat (n - 1)) = Some a.
Proof.
  intros Hn Hin.
  destruct (Z.eq_dec n 0) as [->|Hne].
  - rewrite slice_zero in Hin. contradiction.
  - split; [lia|]. rewrite slice_nth in Hin by lia.
    destruct (nth_error l (Z.to_nat (n - 1))); simpl in Hin; intuition congruence.
Qed.

Section Sorting.
Context {K : Type} (leb : K -> K -> bool) (column : Row -> K).
Hypothesis leb_total : forall a b, leb a b = true \/ leb b a = true.

Lemma insert_row_perm (r : Row) (l : list Row) :
  Permutation (insert_row leb column r l) (r :: l).
Proof.
  induction l as [|h t IH]; simpl; auto.
  destruct (leb (column r) (column h)); auto.
  rewrite IH. apply perm_swap.
Qed.

Lemma sort_values_perm (l : list Row) :
  Permutation (sort_values leb column l) l.
Proof.
  induction l as [|r t IH]; simpl; auto.
  rewrite insert_row_perm. now constructor.
Qed.

Lemma insert_row_sorted (r : Row) (l : list Row) :
  Sorted (ascending leb column) l ->
  Sorted (ascending leb column) (insert_row leb column r l).
Proof.
  induction l as [|h t IH]; simpl; intros Hs.
  - repeat constructor.
  - destruct (leb (column r) (column h)) eqn:E.
    + constructor; [exact Hs|]. constructor. exact E.
    + inversion Hs as [|? ? Ht Hh]; subst.
      assert (Hhr : ascending leb column h r)
        by (destruct (leb_total (column r) (column h)); [congruence|assumption]).
      constructor; [exact (IH Ht)|].
      destruct t as [|h' t']; simpl.
      * constructor. exact Hhr.
      * destruct (leb (column r) (column h')); constructor;
          [exact Hhr | now inversion Hh].
Qed.

Lemma sort_values_sorted (l : list Row) :
  Sorted (ascending leb column) (sort_values leb column l).
Proof.
  induction l as [|r t IH]; simpl.
  - constructor.
  - now apply insert_row_sorted.
Qed.

Lemma sort_values_In (r : Row) (l : list Row) :
  In r (sort_values leb column l) <-> In r l.
Proof.
  split; apply Permutation_in;
    [apply sort_values_perm | apply Permutation_sym, sort_values_perm].
Qed.

Lemma sort_values_length (l : list Row) :
  List.length (sort_values leb column l) = List.length l.
Proof. apply Permutation_length, sort_values_perm. Qed.
End Sorting.

Lemma Zleb_total (a b : Z) : (a <=? b) = true \/ (b <=? a) = true.
Proof. destruct (Z.leb_spec a b); [auto|right; apply Z.leb_le; lia]. Qed.

(** Rows further down a frame sorted on [contract_year] carry a year at
    least as large. *)
Lemma sorted_years_nth (l : list Row) (i j : nat) (a b : Row) :
  Sorted (ascending Z.leb contract_year) l ->
  (i <= j)%nat -> nth_error l i = Some a -> nth_error l j = Some b ->
  contract_year a <= contract_year b.
Proof.
  intros Hs. apply Sorted_StronglySorted in Hs.
  2:{ intros x y z Hxy Hyz. unfold ascending in *.
      apply Z.leb_le in Hxy, Hyz. apply Z.leb_le. lia. }
  revert i j. induction Hs as [|h t Ht IH Hall]; intros i j Hij Hi Hj.
  - destruct i; discriminate.
  - destruct i as [|i], j as [|j]; simpl in *; try lia.
    + inversion Hi; inversion Hj; subst. lia.
    + inversion Hi; subst. apply nth_error_In in Hj.
      rewrite Forall_forall in Hall. specialize (Hall _ Hj).
      apply Z.leb_le in Hall. exact Hall.
    + apply (IH i j); auto; lia.
Qed.

Lemma ascii_compare_refl (a : ascii) : Ascii.compare a a = Eq.
Proof. unfold Ascii.compare. apply N.compare_refl. Qed.

Lemma string_leb_trans (a b c : string) :
  String.leb a b = true -> String.leb b c = true -> String.leb a c = true.
Proof.
  unfold String.leb.
  revert b c. induction a as [|x a IH]; intros [|y b] [|z c]; simpl; auto;
    try discriminate.
  unfold Ascii.compare.
  destruct (N.compare_spec (N_of_ascii x) (N_of_ascii y)) as [Exy|Lxy|Gxy];
    destruct (N.compare_spec (N_of_ascii y) (N_of_ascii z)) as [Eyz|Lyz|Gyz];
    try discriminate; intros Hab Hbc.
  - rewrite Exy, Eyz, N.compare_refl. now apply (IH b c).
  - rewrite Exy. now rewrite (proj2 (N.compare_lt_iff _ _) Lyz).
  - rewrite <- Eyz. now rewrite (proj2 (N.compare_lt_iff _ _) Lxy).
  - assert (Hlt : (N_of_ascii x < N_of_ascii z)%N) by lia.
    now rewrite (proj2 (N.compare_lt_iff _ _) Hlt).
Qed.

(** ** Ascending sorts of a frame, whatever the order of equal keys *)

Section Arrangements.
Context {K : Type} (leb : K -> K -> bool) (column : Row -> K).
Hypothesis leb_total : forall a b, leb a b = true \/ leb b a = true.
Hypothesis leb_trans :
  forall a b c, leb a b = true -> leb b c = true -> leb a c = true.
Hypothesis leb_antisym : forall a b, leb a b = true -> leb b a = true -> a = b.

(** [sort_values] gives one ascending sort of the frame. *)
Lemma sort_values_arrangement (l : list Row) :
  ascending_sort_of leb column (sort_values leb column l) l.
Proof.
  split; [apply sort_values_perm | now apply sort_values_sorted].
Qed.

Lemma sorted_keys_equal (k1 k2 : list K) :
  StronglySorted (fun a b => leb a b = true) k1 ->
  StronglySorted (fun a b => leb a b = true) k2 ->
  Permutation k1 k2 -> k1 = k2.
Proof.
  intros H1. revert k2. induction H1 as [|a t1 Ht1 IH Ha]; intros k2 H2 Hp.
  - now apply Permutation_nil in Hp.
  - destruct H2 as [|b t2 Ht2 Hb].
    + apply Permutation_sym, Permutation_nil in Hp. discriminate.
    + assert (Hab : a = b).
      { assert (Hina : In a (b :: t2))
          by (apply (Permutation_in _ Hp); now left).
        assert (Hinb : In b (a :: t1))
          by (apply (Permutation_in _ (Permutation_sym Hp)); now left).
        destruct Hina as [->|Hina]; [reflexivity|].
        destruct Hinb as [->|Hinb]; [reflexivity|].
        rewrite Forall_forall in Ha, Hb.
        apply leb_antisym; [now apply Ha | now apply Hb]. }
      subst b. f_equal. apply IH; [exact Ht2|].
      now apply Permutation_cons_inv in Hp.
Qed.

Lemma sorted_column (l : list Row) :
  Sorted (ascending leb column) l ->
  StronglySorted (fun a b => leb a b = true) (map column l).
Proof.
  intros Hs. apply Sorted_StronglySorted in Hs.
  2:{ intros x y z Hxy Hyz. unfold ascending in *.
      now apply (leb_trans _ (column y)). }
  induction Hs as [|a t Ht IH Ha]; simpl; constructor; [exact IH|].
  rewrite Forall_forall in Ha |- *.
  intros k Hk. apply in_map_iff in Hk as (r & <- & Hr). now apply Ha.
Qed.

(** Two ascending sorts of one frame carry the same keys, position by
    position. *)
Lemma arrangement_keys (sorted sorted' table : list Row) :
  ascending_sort_of leb column sorted table ->
  ascending_sort_of leb column sorted' table ->
  map column sorted' = map column sorted.
Proof.
  intros [Hp Hs] [Hp' Hs'].
  apply sorted_keys_equal; try now apply sorted_column.
  apply Permutation_map. now rewrite Hp, Hp'.
Qed.

Lemma column_injective (table : list Row) (a b : Row) :
  NoDup (map column table) -> In a table -> In b table ->
  column a = column b -> a = b.
Proof.
  induction table as [|h t IH]; intros Hnd Ha Hb Hk; [contradiction|].
  simpl in Hnd. inversion Hnd as [|? ? Hnotin Hnd']; subst.
  destruct Ha as [->|Ha], Hb as [->|Hb]; auto.
  - exfalso. apply Hnotin. rewrite Hk. now apply in_map.
  - exfalso. apply Hnotin. rewrite <- Hk. now apply in_map.
Qed.

Lemma rows_of_keys (table l1 l2 : list Row) :
  NoDup (map column table) ->
  (forall r, In r l1 -> In r table) -> (forall r, In r l2 -> In r table) ->
  map column l1 = map column l2 -> l1 = l2.
Proof.
  intros Hnd. revert l2. induction l1 as [|a l1 IH]; intros [|b l2] H1 H2 Hk;
    try discriminate Hk; [reflexivity|].
  simpl in Hk. inversion Hk as [[Hab Hrest]].
  f_equal.
  - apply (column_injective table); auto; [apply H1 | apply H2]; now left.
  - apply IH; auto; intros r Hr; [apply H1 | apply H2]; now right.
Qed.

(** When no two rows share a key, the frame has one ascending sort. *)
Lemma arrangement_unique (sorted sorted' table : list Row) :
  NoDup (map column table) ->
  ascending_sort_of leb column sorted table ->
  ascending_sort_of leb column sorted' table ->
  sorted' = sorted.
Proof.
  intros Hnd Hs Hs'.
  apply (rows_of_keys table); auto.
  - intros r. apply Permutation_in, (proj1 Hs').
  - intros r. apply Permutation_in, (proj1 Hs).
  - now apply (arrangement_keys sorted sorted' table).
Qed.

Lemma row_at_keys (l1 l2 : list Row) (n : Z) :
  map column l1 = map column l2 ->
  map column (row_at l1 n) = map column (row_at l2 n).
Proof.
  intros Hk. unfold row_at.
  pose proof (f_equal (fun ks => nth_error ks (Z.to_nat (n - 1))) Hk) as Hn.
  cbv beta in Hn. rewrite !nth_error_map in Hn.
  destruct (nth_error l1 _), (nth_error l2 _); simpl in Hn |- *;
    congruence.
Qed.
End Arrangements.

Lemma Zleb_trans (a b c : Z) :
  (a <=? b) = true -> (b <=? c) = true -> (a <=? c) = true.
Proof. rewrite !Z.leb_le. lia. Qed.

Lemma Zleb_antisym (a b : Z) : (a <=? b) = true -> (b <=? a) = true -> a = b.
Proof. rewrite !Z.leb_le. lia. Qed.

End FrameFacts.

(** * The calendar table is a frame of every method *)

Section TableFrame.

Lemma keeps_ret {A : Type} (a : A) : keeps_table (ret a).
Proof. intros w. reflexivity. Qed.

Lemma keeps_get_df : keeps_table get_df.
Proof. intros w. reflexivity. Qed.

Lemma keeps_print (line : string) : keeps_table (print line).
Proof. intros w. reflexivity. Qed.

Lemma keeps_bind {A B : Type} (m : M A) (f : A -> M B) :
  keeps_table m -> (forall a, keeps_table (f a)) -> keeps_table (bind m f).
Proof.
  intros Hm Hf w. unfold bind. rewrite Hf. apply Hm.
Qed.

Lemma keeps_for_each {A : Type} (l : list A) (body : A -> M unit) :
  (forall a, keeps_table (body a)) -> keeps_table (for_each l body).
Proof.
  intros Hb. induction l as [|a l IH]; simpl.
  - apply keeps_ret.
  - apply keeps_bind; auto.
Qed.

Ltac frame_step :=
  match goal with
  | |- keeps_table (ret _) => apply keeps_ret
  | |- keeps_table get_df => apply keeps_get_df
  | |- keeps_table (print _) => apply keeps_print
  | |- keeps_table (for_each _ _) => apply keeps_for_each; intro
  | |- keeps_table (bind _ _) => apply keeps_bind; [|intro]
  | |- keeps_table (let '(_, _) := ?p in _) => destruct p
  | |- keeps_table (match ?x with _ => _ end) => destruct x
  | |- keeps_table (if ?b then _ else _) => destruct b
  end.

Lemma query_with_keeps
    (query_spread : string -> option PointInTime -> M DataFrame)
    (security : string) (security_type : SecurityType)
    (point_in_time : option PointInTime) :
  (forall s p, keeps_table (query_spread s p)) ->
  keeps_table (query_with query_spread security security_type point_in_time).
Proof.
  intros Hq. unfold query_with.
  repeat first [apply Hq | frame_step].
Qed.

Lemma query_spread_with_keeps
    (query : string -> SecurityType -> option PointInTime -> M DataFrame)
    (spread_code : string) (point_in_time : option PointInTime) :
  (forall s k p, keeps_table (query s k p)) ->
  keeps_table (query_spread_with query spread_code point_in_time).
Proof.
  intros Hq. unfold query_spread_with.
  repeat first [apply Hq | frame_step].
Qed.

Lemma query_spread_keeps (spread_code : string) (point_in_time : option PointInTime) :
  keeps_table (query_spread spread_code point_in_time).
Proof.
  apply query_spread_with_keeps. intros s k p.
  apply query_with_keeps. intros; apply keeps_ret.
Qed.

Lemma determined_ret {A : Type} (a : A) : table_determined (ret a).
Proof. intros w1 w2 H. auto. Qed.

Lemma determined_get_df : table_determined get_df.
Proof. intros w1 w2 H. auto. Qed.

Lemma determined_print (line : string) : table_determined (print line).
Proof. intros w1 w2 H. auto. Qed.

Lemma determined_bind {A B : Type} (m : M A) (f : A -> M B) :
  table_determined m -> (forall a, table_determined (f a)) ->
  table_determined (bind m f).
Proof.
  intros Hm Hf w1 w2 H. unfold bind.
  destruct (Hm w1 w2 H) as [Hv Ht]. rewrite Hv. now apply Hf.
Qed.

Lemma determined_for_each {A : Type} (l : list A) (body : A -> M unit) :
  (forall a, table_determined (body a)) -> table_determined (for_each l body).
Proof.
  intros Hb. induction l as [|a l IH]; simpl.
  - apply determined_ret.
  - apply determined_bind; auto.
Qed.

Ltac determined_step :=
  match goal with
  | |- table_determined (ret _) => apply determined_ret
  | |- table_determined get_df => apply determined_get_df
  | |- table_determined (print _) => apply determined_print
  | |- table_determined (for_each _ _) => apply determined_for_each; intro
  | |- table_determined (bind _ _) => apply determined_bind; [|intro]
  | |- table_determined (let '(_, _) := ?p in _) => destruct p
  | |- table_determined (match ?x with _ => _ end) => destruct x
  | |- table_determined (if ?b then _ else _) => destruct b
  end.

Lemma query_with_determined
    (query_spread : string -> option PointInTime -> M DataFrame)
    (security : string) (security_type : SecurityType)
    (point_in_time : option PointInTime) :
  (forall s p, table_determined (query_spread s p)) ->
  table_determined (query_with query_spread security security_type point_in_time).
Proof.
  intros Hq. unfold query_with.
  repeat first [apply Hq | determined_step].
Qed.

End TableFrame.

(** * What the monthly-generic branch returns *)

Section MonthlyGeneric.

Lemma query_with_monthly
    (qs : string -> option PointInTime -> M DataFrame)
    (security : string) (point_in_time : option PointInTime) (w : World) :
  match parse_monthly_generic security with
  | None =>
      returned (query_with qs security MONTHLY_GENERIC point_in_time) w = EmptyDataFrame
  | Some (abbr, n) =>
      exists name, dict_get month_map abbr = Some name /\
      let candidates := monthly_candidates (self_df w) name point_in_time in
      if len candidates >=? n
      then exists attrs,
             returned (query_with qs security MONTHLY_GENERIC point_in_time) w =
             CalendarFrame (slice (n - 1) n candidates) attrs
      else returned (query_with qs security MONTHLY_GENERIC point_in_time) w =
           EmptyDataFrame
  end.
Proof.
  unfold returned, query_with, parse_monthly_generic, monthly_candidates, bind, get_df.
  cbn [fst snd].
  destruct (apply_point_in_time point_in_time (self_df w)) as [ref result_df].
  destruct (Re.match_monthly security) as [[letters digits]|]; [|reflexivity].
  destruct (dict_get month_map (upper letters)) as [name|] eqn:Ename; [|reflexivity].
  exists name. split; [exact Ename|].
  destruct ref as [t|]; cbn zeta.
  - destruct (len _ >=? int digits) eqn:E.
    + eexists. reflexivity.
    + reflexivity.
  - destruct (len _ >=? int digits) eqn:E.
    + eexists. reflexivity.
    + reflexivity.
Qed.

Lemma candidates_sorted (table : list Row) (name : string)
    (point_in_time : option PointInTime) :
  Sorted (ascending Z.leb contract_year) (monthly_candidates table name point_in_time).
Proof.
  unfold monthly_candidates.
  destruct (apply_point_in_time point_in_time table) as [[t|] result_df];
    apply sort_values_sorted, Zleb_total.
Qed.

Lemma candidates_In (table : list Row) (name : string)
    (point_in_time : option PointInTime) (r : Row) :
  In r (monthly_candidates table name point_in_time) ->
  In r table /\ month_name r = Some name.
Proof.
  assert (Hm : month_is name r = true -> month_name r = Some name).
  { unfold month_is. destruct (month_name r) as [m|]; [|discriminate].
    intros H. apply String.eqb_eq in H. now subst. }
  unfold monthly_candidates, apply_point_in_time.
  destruct point_in_time as [[t|t1 t2]|]; intros H;
    apply sort_values_In in H; repeat (apply filter_In in H as [H ?]); auto.
Qed.

Lemma candidates_not_expired (table : list Row) (name : string)
    (point_in_time : PointInTime) (r : Row) :
  In r (monthly_candidates table name (Some point_in_time)) ->
  ts_gtb (to_datetime (expiry_date r)) (reference_date_of point_in_time) = true.
Proof.
  unfold monthly_candidates, apply_point_in_time.
  destruct point_in_time as [t|t1 t2]; intros H;
    apply sort_values_In in H; apply filter_In in H as [_ H]; exact H.
Qed.

(** Every row a monthly-generic query returns is the row at position
    [n-1] of the ranked candidates. *)
Lemma monthly_rows_nth
    (qs : string -> option PointInTime -> M DataFrame)
    (security : string) (point_in_time : option PointInTime) (w : World) (r : Row) :
  In r (frame_rows (returned (query_with qs security MONTHLY_GENERIC point_in_time) w)) ->
  exists abbr n name,
    parse_monthly_generic security = Some (abbr, n) /\
    dict_get month_map abbr = Some name /\ 1 <= n /\
    nth_error (monthly_candidates (self_df w) name point_in_time) (Z.to_nat (n - 1))
      = Some r.
Proof.
  intros Hin.
  pose proof (query_with_monthly qs security point_in_time w) as H.
  destruct (parse_monthly_generic security) as [[abbr n]|] eqn:Ep.
  - destruct H as (name & Hname & H). cbv zeta in H.
    destruct (len _ >=? n).
    + destruct H as (attrs & H). rewrite H in Hin. simpl in Hin.
      apply slice_seq_incl in Hin; [|now apply (parse_monthly_nonneg security abbr)].
      destruct Hin as [Hn Hnth]. now exists abbr, n, name.
    + rewrite H in Hin. contradiction.
  - rewrite H in Hin. contradiction.
Qed.

End MonthlyGeneric.

(** * Monthly generics *)

Section MonthlyGenericClaims.

Lemma is_month_abbr_letters (m : string) :
  is_month_abbr m ->
  m <> EmptyString /\ all_chars is_alpha m = true /\ upper m = m.
Proof.
  unfold is_month_abbr. simpl.
  intros H. repeat (destruct H as [<-|H]; [repeat split; discriminate|]).
  contradiction.
Qed.

Lemma parse_monthly_code (m : string) (n : Z) :
  is_month_abbr m -> 0 <= n ->
  parse_monthly_generic (monthly_code m n) = Some (m, n).
Proof.
  intros Hm Hn. destruct (is_month_abbr_letters m Hm) as (Hne & Ha & Hu).
  unfold parse_monthly_generic, monthly_code.
  rewrite (match_monthly_serialized m n Hne Ha Hn), Hu, int_str.
  unfold is_month_abbr in Hm. simpl in Hm.
  repeat (destruct Hm as [<-|Hm]; [reflexivity|]). contradiction.
Qed.

Lemma parse_monthly_code_negative (m : string) (n : Z) :
  is_month_abbr m -> n < 0 ->
  parse_monthly_generic (monthly_code m n) = None.
Proof.
  intros Hm Hn. destruct (is_month_abbr_letters m Hm) as (Hne & Ha & Hu).
  unfold parse_monthly_generic, monthly_code.
  now rewrite (match_monthly_negative m n Ha Hn).
Qed.

(** C2.  Whatever the text asked as a monthly generic and whatever the
    point in time, every contract in the result has an expiry date strictly
    after the reference date: a contract with [expiry_date <= t] is never
    returned. *)
Theorem monthly_generic_never_expired
    (security : string) (point_in_time : PointInTime) (w : World) (r : Row) :
  In r (frame_rows (returned (query security MONTHLY_GENERIC (Some point_in_time)) w)) ->
  ts_gtb (to_datetime (expiry_date r)) (reference_date_of point_in_time) = true /\
  ts_leb (to_datetime (expiry_date r)) (reference_date_of point_in_time) = false.
Proof.
  intros Hin. unfold query in Hin.
  apply monthly_rows_nth in Hin as (abbr & n & name & _ & _ & _ & Hnth).
  apply nth_error_In, candidates_not_expired in Hnth.
  unfold ts_leb. rewrite Hnth. auto.
Qed.

Lemma monthly_generic_never_expired_witness :
  In apr26 (frame_rows (returned (query "TFMAPR1" MONTHLY_GENERIC
                                    (Some (At (mkTimestamp (mkDate 2025 5 1) 0))))
                          april_world)) /\
  ts_gtb (to_datetime (expiry_date apr26)) (mkTimestamp (mkDate 2025 5 1) 0) = true.
Proof.
  split.
  - vm_compute. auto.
  - apply (monthly_generic_never_expired "TFMAPR1"
             (At (mkTimestamp (mkDate 2025 5 1) 0)) april_world apr26).
    vm_compute. auto.
Defined.

(** C7.  For a fixed month abbreviation and point in time, the contract
    year of the result does not decrease as the sequence number grows:
    whenever sequences [n1 <= n2] both return a contract, the year of the
    first is at most the year of the second. *)
Theorem monthly_generic_years_monotone
    (m : string) (n1 n2 : Z) (point_in_time : option PointInTime) (w : World)
    (r1 r2 : Row) :
  is_month_abbr m -> n1 <= n2 ->
  In r1 (frame_rows (returned (query (monthly_code m n1) MONTHLY_GENERIC point_in_time) w)) ->
  In r2 (frame_rows (returned (query (monthly_code m n2) MONTHLY_GENERIC point_in_time) w)) ->
  contract_year r1 <= contract_year r2.
Proof.
  intros Hm Hle H1 H2. unfold query in H1, H2.
  apply monthly_rows_nth in H1 as (a1 & k1 & name1 & Hp1 & Hd1 & Hk1 & Hnth1).
  apply monthly_rows_nth in H2 as (a2 & k2 & name2 & Hp2 & Hd2 & Hk2 & Hnth2).
  assert (Hn1 : 0 <= n1).
  { destruct (Z_lt_le_dec n1 0) as [Hneg|]; [|assumption].
    rewrite (parse_monthly_code_negative m n1 Hm Hneg) in Hp1. discriminate. }
  assert (Hn2 : 0 <= n2) by lia.
  rewrite (parse_monthly_code m n1 Hm Hn1) in Hp1.
  rewrite (parse_monthly_code m n2 Hm Hn2) in Hp2.
  inversion Hp1; inversion Hp2; subst a1 k1 a2 k2.
  assert (name2 = name1) by congruence. subst name2.
  apply (sorted_years_nth _ (Z.to_nat (n1 - 1)) (Z.to_nat (n2 - 1)) r1 r2
           (candidates_sorted (self_df w) name1 point_in_time)); auto.
  lia.
Qed.

Lemma monthly_generic_years_monotone_witness :
  contract_year apr25 <= contract_year apr26.
Proof.
  apply (monthly_generic_years_monotone "APR" 1 2 (on_day 2025 1 12) sample_world
           apr25 apr26).
  - unfold is_month_abbr. simpl. auto.
  - lia.
  - vm_compute. auto.
  - vm_compute. auto.
Defined.

End MonthlyGenericClaims.

(** * Spreads *)

Section SpreadClaims.

(** The [MONTHLY_GENERIC] branch never looks at the spread delegate. *)
Lemma query_with_monthly_any
    (qs qs' : string -> option PointInTime -> M DataFrame)
    (security : string) (point_in_time : option PointInTime) (w : World) :
  query_with qs security MONTHLY_GENERIC point_in_time w =
  query_with qs' security MONTHLY_GENERIC point_in_time w.
Proof.
  unfold query_with, bind, get_df. cbn [fst snd].
  destruct (apply_point_in_time point_in_time (self_df w)); reflexivity.
Qed.

Lemma filter_filter {A : Type} (p q : A -> bool) (l : list A) :
  filter q (filter p l) = filter (fun a => (p a && q a)%bool) l.
Proof.
  induction l as [|a l IH]; simpl; auto.
  destruct (p a); simpl; [destruct (q a)|]; now rewrite IH.
Qed.

Lemma query_spread_returned
    (spread_code : string) (point_in_time : option PointInTime) (w : World)
    (m1 m2 digits full1 full2 : string) :
  Re.match_spread spread_code = Some (m1, m2, digits) ->
  dict_get month_map m1 = Some full1 ->
  dict_get month_map m2 = Some full2 ->
  returned (query spread_code SPREAD point_in_time) w =
  match returned (query (monthly_code m1 (int digits)) MONTHLY_GENERIC point_in_time) w with
  | CalendarFrame (first1 :: _) _ =>
      let year2 := second_leg_year full1 full2 (contract_year first1) in
      match filter (fun r => (month_is full2 r && (contract_year r =? year2))%bool)
                   (self_df w) with
      | contract2 :: _ =>
          spread_frame spread_code m1 m2 full1 full2 first1 contract2 year2
      | [] => EmptyDataFrame
      end
  | _ => EmptyDataFrame
  end.
Proof.
  intros Hmatch H1 H2.
  unfold returned, query.
  remember (fst (query_with query_spread (monthly_code m1 (int digits))
                   MONTHLY_GENERIC point_in_time w)) as leg_value eqn:Eleg.
  assert (Hs : fst (query_with query_spread spread_code SPREAD point_in_time w) =
               fst (query_spread spread_code point_in_time w)).
  { unfold query_with, bind, get_df. cbn [fst snd].
    destruct (apply_point_in_time point_in_time (self_df w)); reflexivity. }
  rewrite Hs. clear Hs.
  unfold query_spread, query_spread_with. rewrite Hmatch, H1, H2.
  unfold bind at 1 2. cbn [fst snd].
  set (w' := snd (print _ w)).
  set (leg := query_with _ _ MONTHLY_GENERIC point_in_time).
  assert (Hleg : fst (leg w') = leg_value /\ self_df (snd (leg w')) = self_df w).
  { subst leg leg_value. split.
    - rewrite (query_with_monthly_any query_spread (fun _ _ => ret EmptyDataFrame)).
      apply query_with_determined; [intros; apply determined_ret | reflexivity].
    - rewrite query_with_keeps; [reflexivity | intros; apply keeps_ret]. }
  destruct Hleg as [Hv Ht]. rewrite Hv. clear Hv Eleg.
  destruct leg_value as [|rows attrs|row attrs]; try reflexivity.
  destruct rows as [|first1 rest]; [reflexivity|].
  cbn [empty]. unfold bind, get_df. cbn [fst snd].
  fold (month_idx full1). fold (month_idx full2).
  unfold second_leg_year.
  destruct (month_idx full2 <=? month_idx full1); cbn [fst snd print ret self_df];
    rewrite Ht, slice_0_1, filter_filter;
    match goal with
    | |- context [filter ?f (self_df w)] => destruct (filter f (self_df w))
    end; reflexivity.
Qed.

(** [month_order.index] numbers the months January = 0 .. December = 11. *)
Lemma month_idx_calendar :
  map month_idx (map snd month_map) = [0; 1; 2; 3; 4; 5; 6; 7; 8; 9; 10; 11].
Proof. reflexivity. Qed.

Lemma filter_head_In {A : Type} (p : A -> bool) (l : list A) (a : A) (tl : list A) :
  filter p l = a :: tl -> In a l /\ p a = true.
Proof.
  intros H. apply filter_In. rewrite H. now left.
Qed.

Lemma filter_nil_none {A : Type} (p : A -> bool) (l : list A) :
  (forall a, In a l -> p a = false) -> filter p l = [].
Proof.
  induction l as [|a l IH]; simpl; intros H; auto.
  rewrite (H a) by auto. apply IH. intros b Hb. apply H. auto.
Qed.

Lemma month_is_true (name : string) (r : Row) :
  month_is name r = true <-> month_name r = Some name.
Proof.
  unfold month_is. destruct (month_name r) as [m|].
  - rewrite String.eqb_eq. split; congruence.
  - split; discriminate.
Qed.

(** The code's [month_map] and [month_order.index] agree with the
    calendar: a month the code accepts has its calendar name and index. *)
Lemma month_map_calendar (m full : string) :
  dict_get month_map m = Some full ->
  calendar_month m = Some (full, month_idx full).
Proof.
  unfold calendar_month, calendar_months, month_map.
  cbn [dict_get lookup_month].
  repeat match goal with
         | |- (if String.eqb ?k m then _ else _) = _ -> _ =>
             destruct (String.eqb_spec k m) as [<-|_];
               [intros H; inversion H; reflexivity|]
         end.
  discriminate.
Qed.

(** C1.  In a spread the code accepts, whose first leg resolves to a
    contract of year [year1], both months are calendar months; with [i1]
    and [i2] their calendar indices (January = 0 .. December = 11), the
    second leg is sought in year [year1 + 1] when [i2 <= i1] and in [year1]
    otherwise: the spread carries the calendar row with the second month's
    full name and that contract year, and the query returns the empty frame
    when the table has no such row. *)
Theorem spread_second_leg_year
    (spread_code : string) (point_in_time : option PointInTime) (w : World)
    (m1 m2 digits full1 full2 : string) (first1 : Row) (rest : list Row)
    (attrs : option Metadata) :
  Re.match_spread spread_code = Some (m1, m2, digits) ->
  dict_get month_map m1 = Some full1 ->
  dict_get month_map m2 = Some full2 ->
  returned (query (monthly_code m1 (int digits)) MONTHLY_GENERIC point_in_time) w =
    CalendarFrame (first1 :: rest) attrs ->
  exists i1 i2,
    calendar_month m1 = Some (full1, i1) /\
    calendar_month m2 = Some (full2, i2) /\
    let year1 := contract_year first1 in
    let year2 := if i2 <=? i1 then year1 + 1 else year1 in
    ((exists r, In r (self_df w) /\ month_name r = Some full2 /\ contract_year r = year2) ->
     exists contract2 row meta,
       returned (query spread_code SPREAD point_in_time) w = SpreadFrame row meta /\
       In contract2 (self_df w) /\
       month_name contract2 = Some full2 /\ contract_year contract2 = year2 /\
       contract2_code row = TFM_Code contract2 /\
       contract2_expiry row = expiry_date contract2 /\
       leg2 meta = mkLeg (TFM_Code contract2) full2 year2 /\
       leg1 meta = mkLeg (TFM_Code first1) full1 year1) /\
    ((forall r, In r (self_df w) -> month_name r = Some full2 -> contract_year r <> year2) ->
     returned (query spread_code SPREAD point_in_time) w = EmptyDataFrame).
Proof.
  intros Hmatch H1 H2 Hleg.
  exists (month_idx full1), (month_idx full2).
  split; [now apply month_map_calendar|].
  split; [now apply month_map_calendar|].
  intros year1 year2.
  rewrite (query_spread_returned spread_code point_in_time w m1 m2 digits full1 full2
             Hmatch H1 H2), Hleg.
  cbv zeta. unfold second_leg_year. fold year1. fold year2.
  split.
  - intros (r & Hin & Hm & Hy).
    destruct (filter _ (self_df w)) as [|contract2 tl] eqn:Ef.
    + assert (Hr : In r []).
      { rewrite <- Ef. apply filter_In. split; [exact Hin|].
        apply andb_true_iff. split; [now apply month_is_true | now apply Z.eqb_eq]. }
      contradiction.
    + apply filter_head_In in Ef as [Hin2 Hp].
      apply andb_true_iff in Hp as [Hm2 Hy2].
      apply month_is_true in Hm2. apply Z.eqb_eq in Hy2.
      exists contract2. eexists. eexists.
      split; [reflexivity|]. simpl. auto 10.
  - intros Hnone. rewrite filter_nil_none; [reflexivity|].
    intros a Ha. apply andb_false_iff.
    destruct (month_is full2 a) eqn:Em; [right|now left].
    apply Z.eqb_neq. apply Hnone; [exact Ha | now apply month_is_true].
Qed.

(** December-June and December-December roll to the next year, January-April
    stays in the year of its first leg. *)
Lemma spread_second_leg_year_witness :
  (exists row meta,
     returned (query "TFMDECJUN1" SPREAD (on_day 2024 12 1)) rollover_world
       = SpreadFrame row meta /\
     leg_year (leg1 meta) = 2025 /\
     contract2_code row = TFM_Code jun26 /\ leg_year (leg2 meta) = 2026) /\
  (exists row meta,
     returned (query "TFMJANAPR1" SPREAD (on_day 2024 12 1)) rollover_world
       = SpreadFrame row meta /\
     leg_year (leg1 meta) = 2025 /\
     contract2_code row = TFM_Code apr25 /\ leg_year (leg2 meta) = 2025) /\
  (exists row meta,
     returned (query "TFMDECDEC1" SPREAD (on_day 2024 12 1)) rollover_world
       = SpreadFrame row meta /\
     leg_year (leg1 meta) = 2025 /\
     contract2_code row = TFM_Code dec26 /\ leg_year (leg2 meta) = 2026).
Proof.
  split; [|split].
  - destruct (spread_second_leg_year "TFMDECJUN1" (on_day 2024 12 1) rollover_world
                "DEC" "JUN" "1" "December" "June" dec25 []
                (Some (FullMetadata []
                         (Some (mkYearExpiry 2025 (mkDate 2025 12 19)))
                         (mkMonthInfo "December" "DEC")))
                eq_refl eq_refl eq_refl eq_refl)
      as (i1 & i2 & Hc1 & Hc2 & Hfound & _).
    inversion Hc1; subst i1. inversion Hc2; subst i2.
    destruct Hfound as (c2 & row & meta & Hq & Hin & Hm & Hy & Hc & He & Hl2 & Hl1).
    + exists jun26. simpl. auto 10.
    + exists row, meta. split; [exact Hq|].
      split; [rewrite Hl1; reflexivity|].
      simpl in Hin.
      destruct Hin as [<-|[<-|[<-|[<-|[<-|[]]]]]]; try discriminate Hm.
      split; [exact Hc|]. rewrite Hl2. reflexivity.
  - destruct (spread_second_leg_year "TFMJANAPR1" (on_day 2024 12 1) rollover_world
                "JAN" "APR" "1" "January" "April" jan25 []
                (Some (FullMetadata []
                         (Some (mkYearExpiry 2025 (mkDate 2024 12 30)))
                         (mkMonthInfo "January" "JAN")))
                eq_refl eq_refl eq_refl eq_refl)
      as (i1 & i2 & Hc1 & Hc2 & Hfound & _).
    inversion Hc1; subst i1. inversion Hc2; subst i2.
    destruct Hfound as (c2 & row & meta & Hq & Hin & Hm & Hy & Hc & He & Hl2 & Hl1).
    + exists apr25. simpl. auto 10.
    + exists row, meta. split; [exact Hq|].
      split; [rewrite Hl1; reflexivity|].
      simpl in Hin.
      destruct Hin as [<-|[<-|[<-|[<-|[<-|[]]]]]]; try discriminate Hm.
      split; [exact Hc|]. rewrite Hl2. reflexivity.
  - destruct (spread_second_leg_year "TFMDECDEC1" (on_day 2024 12 1) rollover_world
                "DEC" "DEC" "1" "December" "December" dec25 []
                (Some (FullMetadata []
                         (Some (mkYearExpiry 2025 (mkDate 2025 12 19)))
                         (mkMonthInfo "December" "DEC")))
                eq_refl eq_refl eq_refl eq_refl)
      as (i1 & i2 & Hc1 & Hc2 & Hfound & _).
    inversion Hc1; subst i1. inversion Hc2; subst i2.
    destruct Hfound as (c2 & row & meta & Hq & Hin & Hm & Hy & Hc & He & Hl2 & Hl1).
    + exists dec26. simpl. auto 10.
    + exists row, meta. split; [exact Hq|].
      split; [rewrite Hl1; reflexivity|].
      simpl in Hin.
      destruct Hin as [<-|[<-|[<-|[<-|[<-|[]]]]]]; try discriminate Hm; try discriminate Hy.
      split; [exact Hc|]. rewrite Hl2. reflexivity.
Defined.



End SpreadClaims.

(** * The expired-contract notice *)

Section ExpiredNotice.

Lemma lex_antisym (c1 c2 : comparison) :
  lex (CompOpp c1) (CompOpp c2) = CompOpp (lex c1 c2).
Proof. now destruct c1. Qed.

(** The order on timestamps is the calendar order read both ways. *)
Lemma ts_compare_antisym (a b : Timestamp) :
  ts_compare b a = CompOpp (ts_compare a b).
Proof.
  unfold ts_compare, date_compare.
  rewrite <- !lex_antisym, <- !Z.compare_antisym. reflexivity.
Qed.

Lemma ts_gtb_ltb (a b : Timestamp) : ts_gtb a b = ts_ltb b a.
Proof.
  unfold ts_gtb, ts_ltb. rewrite (ts_compare_antisym a b).
  now destruct (ts_compare a b).
Qed.

Lemma ts_geb_not_ltb (a b : Timestamp) : ts_geb a b = true -> ts_ltb a b = false.
Proof. unfold ts_geb. now destruct (ts_ltb a b). Qed.

(** Every row that survives the point-in-time step expires on or after the
    reference date. *)
Lemma apply_point_in_time_kept (point_in_time : option PointInTime)
    (table result_df : list Row) (t : Timestamp) (r : Row) :
  apply_point_in_time point_in_time table = (Some t, result_df) ->
  In r result_df -> ts_ltb (to_datetime (expiry_date r)) t = false.
Proof.
  unfold apply_point_in_time.
  destruct point_in_time as [[t0|t1 t2]|]; intros H Hin; inversion H; subst;
    apply filter_In in Hin as [_ Hin].
  - now apply ts_geb_not_ltb.
  - apply andb_true_iff in Hin as [Hin _]. now apply ts_geb_not_ltb.
Qed.

(** The list [expired_contracts] of the metadata is empty in every result:
    the same-year contract is looked up in a frame from which the rows
    expiring before the reference date have already been dropped. *)
Lemma expired_contracts_always_empty
    (qs : string -> option PointInTime -> M DataFrame)
    (security : string) (point_in_time : option PointInTime) (w : World)
    (rows : list Row) (expired : list YearExpiry) (next : option YearExpiry)
    (info : MonthInfo) :
  returned (query_with qs security MONTHLY_GENERIC point_in_time) w =
    CalendarFrame rows (Some (FullMetadata expired next info)) ->
  expired = [].
Proof.
  unfold returned, query_with, bind, get_df. cbn [fst snd].
  destruct (apply_point_in_time point_in_time (self_df w)) as [ref result_df] eqn:Ep.
  destruct (Re.match_monthly security) as [[letters digits]|]; [|discriminate].
  destruct (dict_get month_map (upper letters)) as [name|]; [|discriminate].
  destruct ref as [t|]; cbn zeta.
  - destruct (filter (fun r => contract_year r =? year (date t))
                (filter (month_is name) result_df)) as [|first tl] eqn:Ec.
    + destruct (len _ >=? int digits); [|discriminate].
      cbn [fst snd ret]. intros H. inversion H. reflexivity.
    + assert (Hfirst : ts_ltb (to_datetime (expiry_date first)) t = false).
      { apply (apply_point_in_time_kept point_in_time (self_df w) result_df t first Ep).
        assert (Hin : In first (first :: tl)) by now left.
        rewrite <- Ec in Hin.
        apply filter_In in Hin as [Hin _]. apply filter_In in Hin as [Hin _].
        exact Hin. }
      rewrite Hfirst.
      destruct (len _ >=? int digits); [|discriminate].
      cbn [fst snd ret]. intros H. inversion H. reflexivity.
  - destruct (len _ >=? int digits); discriminate.
Qed.

(** C3, at the April scenario.  The table holds April 2025 (expiry
    2025-04-15) and April 2026; asked on 2025-05-01, the same-year contract
    has expired before the point in time, the result is the April 2026
    contract, and its metadata lists no expired contract. *)
Theorem april_scenario_expired_notice :
  In apr25 (self_df april_world) /\
  month_name apr25 = Some "April" /\ contract_year apr25 = 2025 /\
  ts_ltb (to_datetime (expiry_date apr25)) (mkTimestamp (mkDate 2025 5 1) 0) = true /\
  returned (query "TFMAPR1" MONTHLY_GENERIC (on_day 2025 5 1)) april_world =
    CalendarFrame [apr26]
      (Some (FullMetadata []
               (Some (mkYearExpiry 2026 (mkDate 2026 4 15)))
               (mkMonthInfo "April" "APR"))).
Proof.
  repeat split; try reflexivity. simpl. auto.
Qed.

End ExpiredNotice.

(** * The calendar table after a query *)

Section ReadOnly.

(** C10.  Every query, of any security type, on any text and any point in
    time, leaves the calendar table as it was: the table read after the
    query is the table read before it. *)
Theorem query_leaves_table_unchanged
    (security : string) (security_type : SecurityType)
    (point_in_time : option PointInTime) (w : World) :
  table_after (query security security_type point_in_time) w = self_df w.
Proof.
  unfold table_after, query.
  apply query_with_keeps. intros s p. apply query_spread_keeps.
Qed.

(** A query does write to the console, so the frame above is not vacuous. *)
Lemma query_prints :
  printed (query "TFMXYZ1" MONTHLY_GENERIC None) april_world =
  ["Could not match TFMXYZ1 as a monthly generic code"].
Proof. reflexivity. Qed.

End ReadOnly.

(** * Generic references *)

Section GenericClaims.

Lemma query_generic_nonneg (n : Z) (w : World) :
  0 <= n ->
  returned (query_generic n) w =
  CalendarFrame (slice (n - 1) n (sorted_by_contract_month (self_df w))) None.
Proof.
  intros Hn. unfold returned, query_generic, query, query_with, bind, get_df.
  cbn [fst snd apply_point_in_time].
  now rewrite (match_generic_serialized n Hn), int_str.
Qed.

Lemma query_generic_negative (n : Z) (w : World) :
  n < 0 -> returned (query_generic n) w = EmptyDataFrame.
Proof.
  intros Hn. unfold returned, query_generic, query, query_with, bind, get_df.
  cbn [fst snd apply_point_in_time].
  now rewrite (match_generic_negative n Hn).
Qed.

(** C4, as the code has it.  For a positive [n], [query_generic n] returns
    the row at index [n-1] of the table sorted ascending by
    [contract_month]: the result is that row of an ascending sort of the
    table, and against every ascending sort of the table it carries the
    [contract_month] of the row found there at index [n-1], and is that very
    row when no two rows of the table share a [contract_month]; the frame is
    empty when [n] exceeds the number of rows.  Sequence [0] matches the
    grammar and yields that same empty frame; a negative [n] is malformed
    and yields [pd.DataFrame()]. *)
Theorem generic_resolution (n : Z) (w : World) :
  (1 <= n ->
   (exists sorted,
      ascending_sort_of String.leb contract_month sorted (self_df w) /\
      returned (query_generic n) w = CalendarFrame (row_at sorted n) None) /\
   (forall sorted,
      ascending_sort_of String.leb contract_month sorted (self_df w) ->
      exists rows,
        returned (query_generic n) w = CalendarFrame rows None /\
        map contract_month rows = map contract_month (row_at sorted n) /\
        (NoDup (map contract_month (self_df w)) -> rows = row_at sorted n)) /\
   (len (self_df w) < n -> returned (query_generic n) w = CalendarFrame [] None)) /\
  (n = 0 ->
   ~ malformed_generic ("TFM" ++ str n) /\
   returned (query_generic n) w = CalendarFrame [] None) /\
  (n < 0 ->
   malformed_generic ("TFM" ++ str n) /\
   returned (query_generic n) w = EmptyDataFrame).
Proof.
  split; [|split].
  - intros Hn.
    pose proof (sort_values_arrangement String.leb contract_month String.leb_total
                  (self_df w)) as Hmine.
    fold (sorted_by_contract_month (self_df w)) in Hmine.
    assert (Hq : returned (query_generic n) w =
                 CalendarFrame (row_at (sorted_by_contract_month (self_df w)) n) None).
    { rewrite query_generic_nonneg by lia. unfold row_at.
      now rewrite slice_nth. }
    split; [|split].
    + exists (sorted_by_contract_month (self_df w)). split; [exact Hmine | exact Hq].
    + intros sorted Hsorted.
      exists (row_at (sorted_by_contract_month (self_df w)) n).
      split; [exact Hq|]. split.
      * apply row_at_keys.
        apply (arrangement_keys String.leb contract_month string_leb_trans
                 String.leb_antisym sorted _ (self_df w)); assumption.
      * intros Hnd. f_equal.
        apply (arrangement_unique String.leb contract_month string_leb_trans
                 String.leb_antisym sorted _ (self_df w)); assumption.
    + intros Hlen. rewrite Hq. unfold row_at, sorted_by_contract_month.
      assert (Hnone : nth_error (sort_values String.leb contract_month (self_df w))
                        (Z.to_nat (n - 1)) = None).
      { apply nth_error_None. rewrite sort_values_length. unfold len in Hlen. lia. }
      now rewrite Hnone.
  - intros ->. split.
    + unfold malformed_generic. rewrite match_generic_serialized by lia. discriminate.
    + rewrite query_generic_nonneg by lia. now rewrite slice_zero.
  - intros Hn. split.
    + unfold malformed_generic. now apply match_generic_negative.
    + now apply query_generic_negative.
Qed.

(** On the sample calendar, sorted by hand. *)
Lemma generic_resolution_witness :
  returned (query_generic 2) sample_world = CalendarFrame [dec25] None /\
  returned (query_generic 5) sample_world = CalendarFrame [] None /\
  returned (query_generic 0) sample_world = CalendarFrame [] None /\
  returned (query_generic (-1)) sample_world = EmptyDataFrame /\
  (exists r,
     returned (query_generic 1) tied_world = CalendarFrame [r] None /\
     contract_month r = "2025-04").
Proof.
  destruct (generic_resolution 2 sample_world) as (Hpos & _ & _).
  destruct (generic_resolution 5 sample_world) as (Hbig & _ & _).
  destruct (generic_resolution 0 sample_world) as (_ & Hzero & _).
  destruct (generic_resolution (-1) sample_world) as (_ & _ & Hneg).
  destruct (generic_resolution 1 tied_world) as (Htied & _ & _).
  split; [|split; [|split; [|split]]].
  - destruct Hpos as (_ & Hany & _); [lia|].
    destruct (Hany [apr25; dec25; apr26; jun26]) as (rows & Hq & _ & Hrows).
    + split.
      * simpl.
        apply perm_trans with [apr25; apr26; dec25; jun26];
          [apply perm_skip, perm_swap|].
        apply perm_trans with [apr26; apr25; dec25; jun26];
          [apply perm_swap|].
        apply perm_skip, perm_swap.
      * repeat constructor.
    + rewrite Hq, Hrows; [reflexivity|].
      simpl. repeat constructor; simpl; intuition discriminate.
  - apply Hbig; [lia | reflexivity].
  - apply Hzero; reflexivity.
  - apply Hneg; lia.
  - destruct Htied as (_ & Hany & _); [lia|].
    destruct (Hany [apr25_bis; apr25; dec25]) as (rows & Hq & Hmonths & _).
    + split; [apply perm_swap | repeat constructor].
    + destruct rows as [|r [|r' rows]]; try discriminate Hmonths.
      exists r. split; [exact Hq|]. now inversion Hmonths.
Defined.

(** C4 as stated fails at [n = 0]: the text [TFM0] matches the generic
    grammar, and the query answers with the empty frame of a sequence that
    is too large, not with the frame of a text that does not match. *)
Lemma generic_zero_not_malformed :
  ~ malformed_generic ("TFM" ++ str 0) /\
  returned (query_generic 0) sample_world = returned (query_generic 5) sample_world /\
  returned (query_generic 0) sample_world <> returned (query_generic (-1)) sample_world.
Proof.
  split; [discriminate|]. split; [reflexivity | discriminate].
Qed.

End GenericClaims.

(** * Specific codes and the source prefix *)

Section SpecificClaims.

Lemma replace_exhausted (old new : string) (s : string) :
  replace_from old new (Some O) O s = s.
Proof. induction s as [|c s IH]; simpl; congruence. Qed.

Lemma replace_absent (old new : string) (count : option nat) (s : string) :
  contains old s = false -> replace_from old new count O s = s.
Proof.
  induction s as [|c s IH]; intros H; [reflexivity|].
  cbn [contains] in H. apply orb_false_iff in H as [Hp Hc].
  cbn [replace_from]. rewrite Hp, (IH Hc).
  destruct count as [[|k]|]; reflexivity.
Qed.

Lemma prefix_empty (s : string) : prefix EmptyString s = true.
Proof. destruct s; reflexivity. Qed.

(** Query time: [security.replace('ENDEX::F:', '', 1)] on a prefixed code. *)
Lemma replace_first_prefixed (c : string) :
  replace "ENDEX::F:" EmptyString (Some 1%nat) ("ENDEX::F:" ++ c) = c.
Proof.
  unfold replace. cbn. rewrite prefix_empty. apply replace_exhausted.
Qed.

(** Load time: [str.replace('ENDEX::F:', '')] on a prefixed code. *)
Lemma clean_prefixed (c : string) :
  contains "ENDEX::F:" c = false -> clean_TFM_Code ("ENDEX::F:" ++ c) = c.
Proof.
  intros H. unfold clean_TFM_Code, replace. cbn. rewrite prefix_empty.
  now apply replace_absent.
Qed.

Lemma filter_unique_code (table : list Row) (r : Row) :
  NoDup (map TFM_Code table) -> In r table ->
  filter (fun x => String.eqb (TFM_Code x) (TFM_Code r)) table = [r].
Proof.
  induction table as [|a table IH]; intros Hnd Hin; [contradiction|].
  inversion Hnd as [|? ? Hnotin Hnd']; subst. simpl.
  destruct Hin as [->|Hin].
  - rewrite String.eqb_refl. f_equal.
    apply filter_nil_none. intros b Hb.
    apply String.eqb_neq. intros Heq. apply Hnotin. rewrite <- Heq.
    now apply in_map.
  - destruct (String.eqb_spec (TFM_Code a) (TFM_Code r)) as [Heq|_].
    + exfalso. apply Hnotin. rewrite Heq. now apply in_map.
    + now apply IH.
Qed.

(** C6, as the code has it.  For a calendar table with unique codes and a
    code [c] of the table that does not itself contain the text
    [ENDEX::F:], [query_specific] returns exactly the one row whose code is
    [c], whether it is given [c] or [c] behind the prefix [ENDEX::F:]; the
    load-time normalisation maps both texts to [c] as well. *)
Theorem specific_lookup_prefix_invariant (w : World) (c : string) (r : Row) :
  NoDup (map TFM_Code (self_df w)) ->
  In r (self_df w) -> TFM_Code r = c ->
  contains "ENDEX::F:" c = false ->
  returned (query_specific c) w = CalendarFrame [r] None /\
  returned (query_specific ("ENDEX::F:" ++ c)) w = returned (query_specific c) w /\
  clean_TFM_Code c = c /\ clean_TFM_Code ("ENDEX::F:" ++ c) = c.
Proof.
  intros Hnd Hin Hc Hfree.
  assert (Hplain : returned (query_specific c) w = CalendarFrame [r] None).
  { unfold returned, query_specific, query, query_with, bind, get_df.
    cbn [fst snd apply_point_in_time ret].
    unfold replace. rewrite (replace_absent _ _ _ _ Hfree).
    subst c. now rewrite filter_unique_code. }
  split; [exact Hplain|]. split; [|split].
  - rewrite Hplain.
    unfold returned, query_specific, query, query_with, bind, get_df.
    cbn [fst snd apply_point_in_time ret].
    rewrite replace_first_prefixed. subst c. now rewrite filter_unique_code.
  - unfold clean_TFM_Code, replace. now apply replace_absent.
  - now apply clean_prefixed.
Qed.

Lemma specific_lookup_prefix_invariant_witness :
  returned (query_specific "TFM\J25") sample_world = CalendarFrame [apr25] None /\
  returned (query_specific "ENDEX::F:TFM\J25") sample_world =
  returned (query_specific "TFM\J25") sample_world.
Proof.
  destruct (specific_lookup_prefix_invariant sample_world "TFM\J25" apr25)
    as (H1 & H2 & _).
  - simpl. repeat constructor; simpl; intuition discriminate.
  - simpl. auto.
  - reflexivity.
  - reflexivity.
  - split; [exact H1 | exact H2].
Defined.

(** C6 as stated fails for a stored code that still contains the prefix.
    [clean_data] removes the occurrences of [ENDEX::F:] it finds in one
    pass, so the file code [ENDENDEX::F:EX::F:TFM\J25] is stored as
    [ENDEX::F:TFM\J25].  That code is present in the table, yet looking it
    up returns no row, because [query] removes its first [ENDEX::F:] and
    compares [TFM\J25]; with the prefix in front the row is returned, so
    the two results differ. *)
Lemma stored_prefix_not_found :
  map TFM_Code (self_df nested_prefix_world) = ["ENDEX::F:TFM\J25"] /\
  NoDup (map TFM_Code (self_df nested_prefix_world)) /\
  returned (query_specific "ENDEX::F:TFM\J25") nested_prefix_world =
    CalendarFrame [] None /\
  (exists r,
     In r (self_df nested_prefix_world) /\ TFM_Code r = "ENDEX::F:TFM\J25" /\
     returned (query_specific ("ENDEX::F:" ++ "ENDEX::F:TFM\J25")) nested_prefix_world =
       CalendarFrame [r] None) /\
  returned (query_specific ("ENDEX::F:" ++ "ENDEX::F:TFM\J25")) nested_prefix_world <>
  returned (query_specific "ENDEX::F:TFM\J25") nested_prefix_world.
Proof.
  split; [reflexivity|].
  split; [repeat constructor; simpl; tauto|].
  split; [reflexivity|].
  split; [|discriminate].
  eexists. split; [left; reflexivity|]. split; reflexivity.
Qed.

End SpecificClaims.

(** * Parsing and writing back a monthly-generic code *)

Section RoundTrip.

Lemma dict_get_In (d : list (string * string)) (k v : string) :
  dict_get d k = Some v -> In k (map fst d).
Proof.
  induction d as [|[k' v'] d IH]; simpl; [discriminate|].
  destruct (String.eqb_spec k' k); auto.
Qed.

Lemma strip_prefix_app (lit rest : string) :
  strip_prefix lit (lit ++ rest) = Some rest.
Proof.
  induction lit as [|a lit IH]; simpl; [reflexivity|].
  now rewrite Ascii.eqb_refl.
Qed.

(** [str] undoes [int] on a run of digits written without a leading zero. *)
Lemma str_int_digits (digits : string) :
  digits <> EmptyString -> all_chars is_digit digits = true ->
  match digits with
  | String "0" (String _ _) => false
  | _ => true
  end = true ->
  str (int digits) = digits.
Proof.
  intros Hne Hall Hlead.
  destruct digits as [|c s]; [congruence|].
  pose proof Hall as Hall'. simpl in Hall'.
  apply andb_true_iff in Hall' as [Hc Hs].
  destruct (uint_of_digits _ Hall) as [u Hu].
  assert (Hparse : NilZero.int_of_string (String c s) = Some (Pos u)).
  { unfold NilZero.int_of_string. rewrite (digit_not_minus _ Hc).
    unfold NilZero.uint_of_string. now rewrite Hu. }
  unfold int, str. rewrite Hparse, DecimalZ.to_of.
  assert (Hnorm : norm (Pos u) = Pos u).
  { simpl in Hu. destruct (NilEmpty.uint_of_string s) as [u'|] eqn:Es;
      [|discriminate Hu].
    apply uint_of_char_spec in Hu.
    destruct Hu as [[-> ->]|Hu].
    - destruct s as [|c' s']; [|discriminate Hlead].
      simpl in Es. inversion Es. reflexivity.
    - repeat (destruct Hu as [[-> ->]|Hu]; [reflexivity|]).
      destruct Hu as [-> ->]. reflexivity. }
  rewrite Hnorm. now apply NilZero.sis.
Qed.

Lemma span_empty_fst (p : ascii -> bool) (s : string) :
  fst (span p s) = EmptyString -> span p s = (EmptyString, s).
Proof.
  destruct s as [|c s]; simpl; [reflexivity|].
  destruct (p c); [|reflexivity].
  destruct (span p s); simpl. discriminate.
Qed.

(** C8, as the code has it.  A text of ASCII characters that the
    monthly-generic parser accepts as [(abbr, n)] is written back as
    [TFM<abbr><n>], which the parser accepts as the same pair; the written
    text equals the original up to letter case when the original's digits
    [0]..[9] carry no leading zero and nothing follows them
    ([canonical_monthly]). *)
Theorem monthly_code_round_trip (security abbr : string) (n : Z) :
  parse_monthly_generic security = Some (abbr, n) ->
  parse_monthly_generic (monthly_code abbr n) = Some (abbr, n) /\
  (canonical_monthly security = true ->
   same_modulo_case (monthly_code abbr n) security).
Proof.
  intros Hp. split.
  - pose proof (parse_monthly_nonneg _ _ _ Hp) as Hn.
    apply parse_monthly_code; [|exact Hn].
    unfold parse_monthly_generic in Hp.
    destruct (Re.match_monthly security) as [[letters digits]|]; [|discriminate].
    destruct (dict_get month_map (upper letters)) as [name|] eqn:Ed; [|discriminate].
    inversion Hp; subst. now apply dict_get_In in Ed.
  - intros Hcanon. unfold parse_monthly_generic in Hp.
    destruct (Re.match_monthly security) as [[letters digits]|] eqn:Em; [|discriminate].
    destruct (dict_get month_map (upper letters)) as [name|]; [|discriminate].
    inversion Hp; subst abbr n. clear Hp.
    apply match_monthly_groups in Em
      as (Hl & Hal & Hd & Had & rest & -> & Hrest).
    unfold canonical_monthly in Hcanon.
    rewrite strip_prefix_app in Hcanon.
    rewrite (span_app _ _ _ Hal) in Hcanon.
    assert (Hstop : span is_alpha (digits ++ rest) = (EmptyString, digits ++ rest)).
    { destruct digits as [|c s]; [congruence|].
      simpl in Had. apply andb_true_iff in Had as [Hc _].
      apply span_stop. now apply digit_not_alpha. }
    rewrite Hstop in Hcanon. cbn [fst snd] in Hcanon.
    rewrite (span_app _ _ _ Had), (span_empty_fst _ _ Hrest) in Hcanon.
    cbn [fst snd] in Hcanon. rewrite append_empty_r in Hcanon.
    apply andb_true_iff in Hcanon as [Htail Hlead].
    apply String.eqb_eq in Htail. subst rest.
    unfold same_modulo_case, monthly_code.
    rewrite (str_int_digits digits Hd Had Hlead).
    rewrite append_empty_r.
    rewrite !upper_app, upper_idem. reflexivity.
Qed.

Lemma monthly_code_round_trip_witness :
  parse_monthly_generic (monthly_code "APR" 12) = Some ("APR", 12) /\
  same_modulo_case (monthly_code "APR" 12) "TFMapr12".
Proof.
  destruct (monthly_code_round_trip "TFMapr12" "APR" 12 eq_refl) as [Hback Hsame].
  split; [exact Hback | apply Hsame; reflexivity].
Defined.

(** C8 as stated fails: [TFMAPR01] is accepted as [(APR, 1)] and written
    back as [TFMAPR1]; [TFMAPR1x] is accepted as [(APR, 1)] as well. *)
Lemma leading_zero_not_reproduced :
  parse_monthly_generic "TFMAPR01" = Some ("APR", 1) /\
  monthly_code "APR" 1 = "TFMAPR1" /\
  ~ same_modulo_case (monthly_code "APR" 1) "TFMAPR01" /\
  parse_monthly_generic "TFMAPR1x" = Some ("APR", 1) /\
  ~ same_modulo_case (monthly_code "APR" 1) "TFMAPR1x".
Proof.
  repeat split; try reflexivity; discriminate.
Qed.

End RoundTrip.

(** * Malformed references and references without data *)

Section Outcomes.









(** A spread query returns the spread frame or [pd.DataFrame()]. *)
Lemma query_spread_outcomes (spread_code : string)
    (point_in_time : option PointInTime) (w : World) :
  (exists row meta,
     returned (query spread_code SPREAD point_in_time) w = SpreadFrame row meta) \/
  returned (query spread_code SPREAD point_in_time) w = EmptyDataFrame.
Proof.
  destruct (Re.match_spread spread_code) as [[[m1 m2] digits]|] eqn:Hmatch.
  - destruct (dict_get month_map m1) as [full1|] eqn:H1;
      [destruct (dict_get month_map m2) as [full2|] eqn:H2|].
    + rewrite (query_spread_returned spread_code point_in_time w m1 m2 digits
                 full1 full2 Hmatch H1 H2).
      destruct (returned (query (monthly_code m1 (int digits)) MONTHLY_GENERIC
                            point_in_time) w) as [|[|first1 rest] attrs|? ?]; auto.
      cbv zeta. destruct (filter _ (self_df w)); auto.
      left. unfold spread_frame. eauto.
    + right. unfold returned, query, query_with, bind, get_df. cbn [fst snd].
      destruct (apply_point_in_time point_in_time (self_df w)).
      unfold query_spread, query_spread_with. now rewrite Hmatch, H1, H2.
    + right. unfold returned, query, query_with, bind, get_df. cbn [fst snd].
      destruct (apply_point_in_time point_in_time (self_df w)).
      unfold query_spread, query_spread_with. now rewrite Hmatch, H1.
  - right. unfold returned, query, query_with, bind, get_df. cbn [fst snd].
    destruct (apply_point_in_time point_in_time (self_df w)).
    unfold query_spread, query_spread_with. now rewrite Hmatch.
Qed.

Lemma parse_spread_none (spread_code : string)
    (point_in_time : option PointInTime) (w : World) :
  parse_spread spread_code = None ->
  returned (query spread_code SPREAD point_in_time) w = EmptyDataFrame.
Proof.
  intros Hp. unfold returned, query, query_with, bind, get_df. cbn [fst snd].
  destruct (apply_point_in_time point_in_time (self_df w)).
  unfold query_spread, query_spread_with. unfold parse_spread in Hp.
  destruct (Re.match_spread spread_code) as [[[m1 m2] digits]|]; [|reflexivity].
  destruct (dict_get month_map m1); [destruct (dict_get month_map m2)|];
    try discriminate Hp; reflexivity.
Qed.




End Outcomes.

(** * Loading the calendar: [parse_contract] and [clean_data] *)

Section Loading.

Lemma strip_prefix_is_prefix (lit s rest : string) :
  strip_prefix lit s = Some rest -> prefix lit s = true.
Proof.
  revert s. induction lit as [|a lit IH]; intros s H.
  - apply prefix_empty.
  - destruct s as [|b s]; [discriminate H|]. simpl in H |- *.
    destruct (Ascii.eqb_spec a b) as [->|]; [|discriminate H].
    destruct (ascii_dec b b); [eauto|congruence].
Qed.

Lemma match_contract_here_short (s : string) :
  (String.length s < 7)%nat -> Re.match_contract_here s = None.
Proof.
  intros H. unfold Re.match_contract_here.
  destruct (strip_prefix "TFM\" s) as [rest|] eqn:E; [|reflexivity].
  apply strip_prefix_spec in E. subst s. simpl in H.
  destruct rest as [|a [|b [|c rest]]]; simpl in H; try reflexivity; lia.
Qed.

Lemma match_contract_short (s : string) :
  (String.length s < 7)%nat -> Re.match_contract s = None.
Proof.
  induction s as [|c s IH]; intros H.
  - reflexivity.
  - cbn [Re.match_contract]. simpl in H.
    rewrite IH by lia. rewrite match_contract_here_short by (simpl; lia).
    now destruct (Ascii.eqb c "010").
Qed.

Lemma match_contract_cons (c : ascii) (s : string) :
  Re.match_contract (String c s) =
  match (if Ascii.eqb c "010" then None else Re.match_contract s) with
  | Some groups => Some groups
  | None => Re.match_contract_here (String c s)
  end.
Proof. reflexivity. Qed.

(** What the two groups of an accepted contract code look like. *)
Lemma match_contract_here_groups (s month_code yy : string) :
  Re.match_contract_here s = Some (month_code, yy) ->
  exists letter y1 y2,
    month_code = String letter EmptyString /\
    contains month_code "FGHJKMNQUVXZ" = true /\
    yy = String y1 (String y2 EmptyString) /\
    is_digit y1 = true /\ is_digit y2 = true.
Proof.
  unfold Re.match_contract_here.
  destruct (strip_prefix "TFM\" s) as [[|letter [|y1 [|y2 rest]]]|]; try discriminate.
  destruct (contains (String letter EmptyString) "FGHJKMNQUVXZ") eqn:El;
    [|discriminate].
  destruct (is_digit y1) eqn:E1; [|discriminate].
  destruct (is_digit y2) eqn:E2; [|discriminate].
  simpl. intros H. inversion H; subst. exists letter, y1, y2. auto.
Qed.

Lemma match_contract_groups (s month_code yy : string) :
  Re.match_contract s = Some (month_code, yy) ->
  exists letter y1 y2,
    month_code = String letter EmptyString /\
    contains month_code "FGHJKMNQUVXZ" = true /\
    yy = String y1 (String y2 EmptyString) /\
    is_digit y1 = true /\ is_digit y2 = true.
Proof.
  induction s as [|c s IH]; cbn [Re.match_contract].
  - apply match_contract_here_groups.
  - destruct (if Ascii.eqb c "010" then None else Re.match_contract s)
      as [groups|] eqn:E.
    + destruct (Ascii.eqb c "010"); [discriminate E|].
      intros H. inversion H; subst. now apply IH.
    + apply match_contract_here_groups.
Qed.

(** The month letters are exactly the keys of [parse_contract]'s map, and
    every month it names is a month [query] knows an abbreviation for. *)
Lemma letter_month (letter : ascii) :
  contains (String letter EmptyString) "FGHJKMNQUVXZ" = true ->
  exists month abbr,
    dict_get letter_month_map (String letter EmptyString) = Some month /\
    dict_get month_abbr_map month = Some abbr /\
    dict_get month_map abbr = Some month /\
    forall y1 y2, is_digit y1 = true -> is_digit y2 = true ->
      month_name_of (Some (month ++ " 20" ++ String y1 (String y2 EmptyString)))
      = Some month.
Proof.
  destruct letter as [[|] [|] [|] [|] [|] [|] [|] [|]]; intros H;
    try discriminate H;
    (eexists; eexists; split; [reflexivity|]; split; [reflexivity|];
     split; [reflexivity|]; intros y1 y2 H1 H2; cbn; now rewrite H1, H2).
Qed.

(** X1.  A contract code is decoded from its last seven characters,
    whatever single-line text stands before them: [parse_contract] of
    [head ++ TFM\<letter><yy>] is the month of the letter followed by
    [20<yy>]. *)
Theorem parse_contract_decodes
    (head letter month : string) (y1 y2 : ascii) :
  no_newline head = true ->
  dict_get letter_month_map letter = Some month ->
  is_digit y1 = true -> is_digit y2 = true ->
  parse_contract (head ++ "TFM\" ++ letter ++ String y1 (String y2 EmptyString))
  = Some (month ++ " 20" ++ String y1 (String y2 EmptyString)).
Proof.
  intros Hhead Hletter H1 H2.
  assert (Hshape : exists c, letter = String c EmptyString /\
                             contains letter "FGHJKMNQUVXZ" = true).
  { clear - Hletter. unfold letter_month_map in Hletter. cbn [dict_get] in Hletter.
    revert Hletter.
    repeat match goal with
           | |- (if String.eqb ?k letter then _ else _) = _ -> _ =>
               destruct (String.eqb_spec k letter) as [<-|_];
                 [intros _; eexists; split; reflexivity|]
           end.
    discriminate. }
  destruct Hshape as (c & -> & Hc).
  assert (Hhere : Re.match_contract_here
                    ("TFM\" ++ String c EmptyString ++ String y1 (String y2 EmptyString))
                  = Some (String c EmptyString, String y1 (String y2 EmptyString))).
  { unfold Re.match_contract_here. rewrite strip_prefix_app. cbn [append].
    now rewrite Hc, H1, H2. }
  assert (Hmatch : Re.match_contract
                     (head ++ "TFM\" ++ String c EmptyString
                           ++ String y1 (String y2 EmptyString))
                   = Some (String c EmptyString, String y1 (String y2 EmptyString))).
  { induction head as [|a head IH].
    - change (Re.match_contract
                (String "T" ("FM\" ++ String c EmptyString
                                   ++ String y1 (String y2 EmptyString)))
              = Some (String c EmptyString, String y1 (String y2 EmptyString))).
      rewrite match_contract_cons.
      rewrite match_contract_short by (simpl; lia).
      change (Ascii.eqb "T" "010") with false. cbv iota. exact Hhere.
    - simpl in Hhead. apply andb_true_iff in Hhead as [Ha Hhead].
      change (String a head ++ ?x) with (String a (head ++ x)).
      rewrite match_contract_cons.
      apply negb_true_iff in Ha. rewrite Ha, (IH Hhead). reflexivity. }
  unfold parse_contract. rewrite Hmatch, Hletter. reflexivity.
Qed.

Lemma parse_contract_decodes_witness :
  parse_contract "ENDEX::F:TFM\J25" = Some "April 2025".
Proof.
  apply (parse_contract_decodes "ENDEX::F:" "J" "April" "2" "5");
    reflexivity.
Defined.

(** X2.  A text in which [TFM\] does not occur is not a contract code:
    [parse_contract] returns [None]. *)
Theorem parse_contract_needs_marker (tfm_code : string) :
  contains "TFM\" tfm_code = false -> parse_contract tfm_code = None.
Proof.
  intros H. unfold parse_contract.
  assert (Hnone : Re.match_contract tfm_code = None).
  { induction tfm_code as [|c s IH].
    - reflexivity.
    - cbn [contains] in H. apply orb_false_iff in H as [Hp Hc].
      cbn [Re.match_contract]. rewrite (IH Hc).
      assert (Hhere : Re.match_contract_here (String c s) = None).
      { unfold Re.match_contract_here.
        destruct (strip_prefix "TFM\" (String c s)) as [rest|] eqn:E; [|reflexivity].
        apply strip_prefix_is_prefix in E. congruence. }
      rewrite Hhere. now destruct (Ascii.eqb c "010"). }
  now rewrite Hnone.
Qed.

Lemma parse_contract_needs_marker_witness :
  parse_contract "TFM-weekly" = None.
Proof.
  apply (parse_contract_needs_marker "TFM-weekly"). reflexivity.
Defined.

Lemma cleaned_row_month (df : list RawRow) (r : Row) :
  In r (clean_data df) ->
  (delivery_month r = None /\ month_name r = None) \/
  (exists abbr name yy,
     dict_get month_map abbr = Some name /\
     month_name r = Some name /\
     delivery_month r = Some (name ++ " 20" ++ yy)).
Proof.
  unfold clean_data. intros Hin. apply in_map_iff in Hin as (raw & <- & Hraw).
  unfold clean_row. cbn [delivery_month month_name].
  unfold parse_contract.
  destruct (Re.match_contract (clean_TFM_Code (raw_TFM_Code raw)))
    as [[month_code yy]|] eqn:Em; [|now left].
  apply match_contract_groups in Em as (letter & y1 & y2 & -> & Hl & -> & H1 & H2).
  destruct (letter_month letter Hl) as (month & abbr & Hd & _ & Hq & Hname).
  rewrite Hd. right. exists abbr, month, (String y1 (String y2 EmptyString)).
  split; [exact Hq|]. split; [now apply Hname | reflexivity].
Qed.

(** X3.  Every row [clean_data] produces keeps the code text of the file
    as [TFM_Code_original], and either has no delivery month and no month
    name (its code does not decode), or carries as [month_name] a full
    month name that [query]'s [month_map] gives an abbreviation for, the
    month its [delivery_month] starts with. *)
Theorem clean_data_month_names (df : list RawRow) (r : Row) :
  In r (clean_data df) ->
  (exists raw, In raw df /\ r = clean_row raw /\
               TFM_Code_original r = raw_TFM_Code raw /\
               TFM_Code r = clean_TFM_Code (raw_TFM_Code raw)) /\
  ((delivery_month r = None /\ month_name r = None) \/
   (exists abbr name yy,
      dict_get month_map abbr = Some name /\
      month_name r = Some name /\
      delivery_month r = Some (name ++ " 20" ++ yy))).
Proof.
  intros Hin. split.
  - unfold clean_data in Hin. apply in_map_iff in Hin as (raw & <- & Hraw).
    exists raw. auto.
  - now apply (cleaned_row_month df).
Qed.

Lemma clean_data_month_names_witness :
  exists abbr name yy,
    dict_get month_map abbr = Some name /\
    month_name (clean_row (mkRawRow "ENDEX::F:TFM\Z25" (mkDate 2025 12 1)
                             (mkDate 2025 11 27))) = Some name /\
    delivery_month (clean_row (mkRawRow "ENDEX::F:TFM\Z25" (mkDate 2025 12 1)
                                 (mkDate 2025 11 27))) = Some (name ++ " 20" ++ yy).
Proof.
  destruct (clean_data_month_names raw_calendar
              (clean_row (mkRawRow "ENDEX::F:TFM\Z25" (mkDate 2025 12 1)
                            (mkDate 2025 11 27)))) as [_ [[Hd _]|H]].
  - simpl. auto.
  - discriminate Hd.
  - exact H.
Defined.

End Loading.

(** * Ranked references: which rows they reach *)

Section RankedReferences.

Lemma slice_seq_length {A : Type} (n : Z) (l : list A) :
  0 <= n -> (List.length (slice (n - 1) n l) <= 1)%nat.
Proof.
  intros Hn. destruct (Z.eq_dec n 0) as [->|Hne].
  - rewrite slice_zero. simpl. lia.
  - rewrite slice_nth by lia.
    destruct (nth_error l (Z.to_nat (n - 1))); simpl; lia.
Qed.

Lemma slice_of_position {A : Type} (l : list A) (i : nat) (a : A) :
  nth_error l i = Some a ->
  slice (Z.of_nat (S i) - 1) (Z.of_nat (S i)) l = [a].
Proof.
  intros H. rewrite slice_nth by lia.
  replace (Z.to_nat (Z.of_nat (S i) - 1)) with i by lia. now rewrite H.
Qed.

(** What the [GENERIC] branch returns, with or without a point in time. *)
Lemma query_generic_branch (security : string) (point_in_time : option PointInTime)
    (w : World) :
  returned (query security GENERIC point_in_time) w =
  match Re.match_generic security with
  | Some group1 =>
      CalendarFrame
        (slice (int group1 - 1) (int group1)
           (sort_values String.leb contract_month
              (snd (apply_point_in_time point_in_time (self_df w))))) None
  | None => EmptyDataFrame
  end.
Proof.
  unfold returned, query, query_with, bind, get_df. cbn [fst snd].
  destruct (apply_point_in_time point_in_time (self_df w)) as [ref result_df].
  cbn [snd]. now destruct (Re.match_generic security).
Qed.

Lemma apply_point_in_time_incl (point_in_time : option PointInTime)
    (table : list Row) (r : Row) :
  In r (snd (apply_point_in_time point_in_time table)) -> In r table.
Proof.
  unfold apply_point_in_time.
  destruct point_in_time as [[t|t1 t2]|]; cbn [snd]; intros H; auto;
    now apply filter_In in H.
Qed.

(** X4.  Without a point in time the generic references [TFM1] ..
    [TFM<len>] enumerate the calendar: every row of the table is the answer
    to exactly such a reference, and a generic query never returns a row
    that is not in the table. *)
Theorem generic_enumerates_table (w : World) :
  (forall r, In r (self_df w) ->
     exists n, 1 <= n <= len (self_df w) /\
               returned (query_generic n) w = CalendarFrame [r] None) /\
  (forall n r, In r (frame_rows (returned (query_generic n) w)) ->
               In r (self_df w)).
Proof.
  split.
  - intros r Hin.
    apply (proj2 (sort_values_In String.leb contract_month r (self_df w))) in Hin.
    apply In_nth_error in Hin as [i Hi].
    assert (Hlt : (i < List.length (self_df w))%nat).
    { rewrite <- (sort_values_length String.leb contract_month).
      apply nth_error_Some. congruence. }
    exists (Z.of_nat (S i)). split; [unfold len; lia|].
    rewrite query_generic_nonneg by lia. unfold sorted_by_contract_month.
    now rewrite (slice_of_position _ i r Hi).
  - intros n r Hin.
    destruct (Z_lt_le_dec n 0) as [Hneg|Hpos].
    + rewrite query_generic_negative in Hin by exact Hneg. contradiction.
    + rewrite query_generic_nonneg in Hin by exact Hpos.
      cbn [frame_rows] in Hin. unfold sorted_by_contract_month in Hin.
      apply slice_seq_incl in Hin as [_ Hnth]; [|exact Hpos].
      apply nth_error_In in Hnth.
      exact (proj1 (sort_values_In String.leb contract_month r (self_df w)) Hnth).
Qed.

Lemma generic_enumerates_table_witness :
  exists n, 1 <= n <= len (self_df sample_world) /\
            returned (query_generic n) sample_world = CalendarFrame [jun26] None.
Proof.
  apply (proj1 (generic_enumerates_table sample_world) jun26).
  simpl. auto.
Defined.

Lemma month_row_reachable
    (abbr name : string) (w : World) (r : Row) :
  dict_get month_map abbr = Some name ->
  In r (self_df w) -> month_name r = Some name ->
  exists n attrs,
    1 <= n /\
    returned (query (monthly_code abbr n) MONTHLY_GENERIC None) w =
    CalendarFrame [r] attrs.
Proof.
  intros Hd Hin Hm.
  assert (Hc : In r (monthly_candidates (self_df w) name None)).
  { unfold monthly_candidates, apply_point_in_time.
    apply sort_values_In, filter_In. split; [exact Hin | now apply month_is_true]. }
  apply In_nth_error in Hc as [i Hi].
  assert (Hlt : (i < List.length (monthly_candidates (self_df w) name None))%nat)
    by (apply nth_error_Some; congruence).
  pose proof (query_with_monthly query_spread
                (monthly_code abbr (Z.of_nat (S i))) None w) as H.
  assert (Habbr : is_month_abbr abbr)
    by (unfold is_month_abbr; now apply (dict_get_In month_map abbr name)).
  rewrite (parse_monthly_code abbr (Z.of_nat (S i)) Habbr) in H by lia.
  destruct H as (name' & Hd' & H).
  assert (name' = name) by congruence. subst name'. cbv zeta in H.
  destruct (len _ >=? Z.of_nat (S i)) eqn:E.
  - destruct H as (attrs & H). exists (Z.of_nat (S i)), attrs.
    split; [lia|]. unfold query. rewrite H. now rewrite (slice_of_position _ i r Hi).
  - exfalso. unfold len in E.
    destruct (Z.geb_spec (Z.of_nat (List.length (monthly_candidates (self_df w) name None)))
                (Z.of_nat (S i))); [discriminate|lia].
Qed.

(** X5.  Without a point in time every contract of a month is reached by
    a monthly-generic reference: a table row whose [month_name] is the full
    name of the abbreviation [abbr] is the single row returned for
    [TFM<abbr><n>] at some [n >= 1], expired or not. *)
Theorem monthly_generic_enumerates_month
    (abbr name : string) (w : World) (r : Row) :
  dict_get month_map abbr = Some name ->
  In r (self_df w) -> month_name r = Some name ->
  exists n attrs,
    1 <= n /\
    returned (query (monthly_code abbr n) MONTHLY_GENERIC None) w =
    CalendarFrame [r] attrs.
Proof. apply month_row_reachable. Qed.

Lemma monthly_generic_enumerates_month_witness :
  exists n attrs,
    1 <= n /\
    returned (query (monthly_code "APR" n) MONTHLY_GENERIC None) sample_world =
    CalendarFrame [apr26] attrs.
Proof.
  apply (monthly_generic_enumerates_month "APR" "April" sample_world apr26).
  - reflexivity.
  - simpl. auto.
  - reflexivity.
Defined.

(** X6.  Loading and asking compose: in a store built by [clean_data],
    every row whose code decodes to a delivery month is returned by some
    monthly-generic reference [TFM<abbr><n>] asked without a point in
    time. *)
Theorem loaded_contract_is_reachable
    (df : list RawRow) (console : list string) (r : Row) :
  In r (clean_data df) -> delivery_month r <> None ->
  exists abbr n attrs,
    is_month_abbr abbr /\ 1 <= n /\
    returned (query (monthly_code abbr n) MONTHLY_GENERIC None)
             (mkWorld (clean_data df) console) = CalendarFrame [r] attrs.
Proof.
  intros Hin Hdm.
  destruct (cleaned_row_month df r Hin) as [[Hnone _]|H]; [congruence|].
  destruct H as (abbr & name & yy & Hd & Hm & _).
  destruct (month_row_reachable abbr name
              (mkWorld (clean_data df) console) r Hd Hin Hm) as (n & attrs & Hn & Hq).
  exists abbr, n, attrs. split; [now apply (dict_get_In month_map abbr name)|].
  split; [exact Hn | exact Hq].
Qed.

Lemma loaded_contract_is_reachable_witness :
  exists abbr n attrs,
    is_month_abbr abbr /\ 1 <= n /\
    returned (query (monthly_code abbr n) MONTHLY_GENERIC None) loaded_world =
    CalendarFrame [clean_row (mkRawRow "ENDEX::F:TFM\J26" (mkDate 2026 4 1)
                                (mkDate 2026 3 30))] attrs.
Proof.
  apply (loaded_contract_is_reachable raw_calendar []).
  - simpl. auto.
  - discriminate.
Defined.

(** X7.  A generic or monthly-generic query returns at most one row,
    whatever the text and the point in time. *)
Theorem ranked_query_single_row
    (security : string) (security_type : SecurityType)
    (point_in_time : option PointInTime) (w : World) :
  security_type = GENERIC \/ security_type = MONTHLY_GENERIC ->
  (List.length (frame_rows (returned (query security security_type point_in_time) w))
   <= 1)%nat.
Proof.
  intros [->| ->].
  - rewrite query_generic_branch.
    destruct (Re.match_generic security) as [group1|] eqn:E; [|simpl; lia].
    cbn [frame_rows]. apply slice_seq_length.
    apply match_generic_group in E as [_ Hd]. now apply int_digits_nonneg.
  - pose proof (query_with_monthly query_spread security point_in_time w) as H.
    fold (query security MONTHLY_GENERIC point_in_time) in H.
    destruct (parse_monthly_generic security) as [[abbr n]|] eqn:Ep.
    + destruct H as (name & _ & H). cbv zeta in H.
      destruct (len _ >=? n).
      * destruct H as (attrs & ->). cbn [frame_rows]. apply slice_seq_length.
        now apply (parse_monthly_nonneg security abbr).
      * rewrite H. simpl. lia.
    + rewrite H. simpl. lia.
Qed.

Lemma ranked_query_single_row_witness :
  (List.length (frame_rows (returned (query "TFM2" GENERIC (on_day 2025 1 1))
                              sample_world)) <= 1)%nat.
Proof.
  apply (ranked_query_single_row "TFM2" GENERIC (on_day 2025 1 1) sample_world).
  now left.
Defined.

Lemma ts_compare_refl (t : Timestamp) : ts_compare t t = Eq.
Proof.
  unfold ts_compare, date_compare. now rewrite !Z.compare_refl.
Qed.

(** X8.  The day a contract expires is treated differently by the query
    kinds.  For a table row whose expiry is exactly the point in time [t]:
    no monthly-generic reference returns it (its filter is strict), while
    some generic reference [TFM<n>] still returns it and, when its code
    does not itself contain the text [ENDEX::F:], so does a specific lookup
    of that code (their filter keeps [expiry_date >= t]). *)
Theorem expiry_day_boundary (w : World) (r : Row) (t : Timestamp) :
  In r (self_df w) -> to_datetime (expiry_date r) = t ->
  (forall security,
     ~ In r (frame_rows (returned (query security MONTHLY_GENERIC (Some (At t))) w))) /\
  (contains "ENDEX::F:" (TFM_Code r) = false ->
   In r (frame_rows (returned (query (TFM_Code r) SPECIFIC (Some (At t))) w))) /\
  (exists n, 1 <= n /\
     returned (query ("TFM" ++ str n) GENERIC (Some (At t))) w = CalendarFrame [r] None).
Proof.
  intros Hin Ht.
  assert (Hkept : In r (filter (fun x => ts_geb (to_datetime (expiry_date x)) t)
                          (self_df w))).
  { apply filter_In. split; [exact Hin|].
    rewrite Ht. unfold ts_geb, ts_ltb. now rewrite ts_compare_refl. }
  split; [|split].
  - intros security Hq. unfold query in Hq.
    apply monthly_rows_nth in Hq as (abbr & n & name & _ & _ & _ & Hnth).
    apply nth_error_In, candidates_not_expired in Hnth.
    cbn [reference_date_of] in Hnth. rewrite Ht in Hnth.
    unfold ts_gtb in Hnth. rewrite ts_compare_refl in Hnth. discriminate.
  - intros Hfree.
    unfold returned, query, query_with, bind, get_df.
    cbn [fst snd apply_point_in_time ret frame_rows].
    unfold replace. rewrite (replace_absent _ _ _ _ Hfree).
    apply filter_In. split; [exact Hkept | apply String.eqb_refl].
  - apply (proj2 (sort_values_In String.leb contract_month r _)) in Hkept.
    apply In_nth_error in Hkept as [i Hi].
    exists (Z.of_nat (S i)). split; [lia|].
    rewrite query_generic_branch, match_generic_serialized by lia.
    rewrite int_str. cbn [apply_point_in_time snd].
    now rewrite (slice_of_position _ i r Hi).
Qed.

Lemma expiry_day_boundary_witness :
  ~ In apr25 (frame_rows (returned (query "TFMAPR1" MONTHLY_GENERIC (on_day 2025 4 15))
                            sample_world)) /\
  In apr25 (frame_rows (returned (query "TFM\J25" SPECIFIC (on_day 2025 4 15))
                          sample_world)).
Proof.
  destruct (expiry_day_boundary sample_world apr25 (mkTimestamp (mkDate 2025 4 15) 0))
    as (Hmonthly & Hspecific & _).
  - simpl. auto.
  - reflexivity.
  - split; [apply Hmonthly | apply Hspecific; reflexivity].
Defined.

End RankedReferences.

(** * Order of the generic references *)

Section GenericOrder.

Lemma sorted_months_nth (l : list Row) (i j : nat) (a b : Row) :
  Sorted (ascending String.leb contract_month) l ->
  (i <= j)%nat -> nth_error l i = Some a -> nth_error l j = Some b ->
  String.leb (contract_month a) (contract_month b) = true.
Proof.
  intros Hs. apply Sorted_StronglySorted in Hs.
  2:{ intros x y z Hxy Hyz. unfold ascending in *.
      now apply (string_leb_trans _ (contract_month y)). }
  revert i j. induction Hs as [|h t Ht IH Hall]; intros i j Hij Hi Hj.
  - destruct i; discriminate.
  - destruct i as [|i], j as [|j]; simpl in *; try lia.
    + inversion Hi; inversion Hj; subst.
      destruct (String.leb_total (contract_month b) (contract_month b)); auto.
    + inversion Hi; subst. apply nth_error_In in Hj.
      rewrite Forall_forall in Hall. exact (Hall _ Hj).
    + apply (IH i j); auto; lia.
Qed.

(** X9.  For a fixed point in time (or none), generic references go
    through the calendar in ascending [contract_month]: when [TFM<n1>] and
    [TFM<n2>] with [n1 <= n2] both return a contract, the first contract's
    month text is not after the second's; and with a point in time every
    contract returned expires on or after the reference date. *)
Theorem generic_months_monotone
    (n1 n2 : Z) (point_in_time : option PointInTime) (w : World) (r1 r2 : Row) :
  n1 <= n2 ->
  In r1 (frame_rows (returned (query ("TFM" ++ str n1) GENERIC point_in_time) w)) ->
  In r2 (frame_rows (returned (query ("TFM" ++ str n2) GENERIC point_in_time) w)) ->
  String.leb (contract_month r1) (contract_month r2) = true /\
  (forall p, point_in_time = Some p ->
     ts_geb (to_datetime (expiry_date r1)) (reference_date_of p) = true).
Proof.
  intros Hle H1 H2.
  assert (Hn1 : 0 <= n1).
  { destruct (Z_lt_le_dec n1 0) as [Hneg|]; [|assumption].
    rewrite query_generic_branch, (match_generic_negative n1 Hneg) in H1.
    contradiction. }
  rewrite query_generic_branch, match_generic_serialized, int_str in H1 by lia.
  rewrite query_generic_branch, match_generic_serialized, int_str in H2 by lia.
  cbn [frame_rows] in H1, H2.
  apply slice_seq_incl in H1 as [Hk1 Hnth1]; [|lia].
  apply slice_seq_incl in H2 as [Hk2 Hnth2]; [|lia].
  split.
  - apply (sorted_months_nth
             (sort_values String.leb contract_month
                (snd (apply_point_in_time point_in_time (self_df w))))
             (Z.to_nat (n1 - 1)) (Z.to_nat (n2 - 1)) r1 r2); auto.
    + apply sort_values_sorted, String.leb_total.
    + lia.
  - intros p ->. apply nth_error_In in Hnth1.
    apply (proj1 (sort_values_In String.leb contract_month r1 _)) in Hnth1.
    unfold apply_point_in_time in Hnth1.
    destruct p as [t|t1 t2]; cbn [snd reference_date_of] in *;
      apply filter_In in Hnth1 as [_ Hf]; [exact Hf|].
    now apply andb_true_iff in Hf as [Hf _].
Qed.

Lemma generic_months_monotone_witness :
  String.leb (contract_month apr25) (contract_month jun26) = true.
Proof.
  destruct (generic_months_monotone 1 4 (on_day 2025 1 1) sample_world apr25 jun26)
    as [Hmonths _].
  - lia.
  - simpl. auto.
  - simpl. auto.
  - exact Hmonths.
Defined.

End GenericOrder.

(** * Metadata of a monthly-generic result *)

Section MonthlyMetadata.

Lemma monthly_metadata_of
    (qs : string -> option PointInTime -> M DataFrame)
    (security : string) (point_in_time : option PointInTime) (w : World)
    (rows : list Row) (attrs : option Metadata) :
  returned (query_with qs security MONTHLY_GENERIC point_in_time) w =
    CalendarFrame rows attrs ->
  exists abbr n name,
    parse_monthly_generic security = Some (abbr, n) /\
    dict_get month_map abbr = Some name /\
    attrs =
    Some (match point_in_time with
          | Some _ =>
              FullMetadata []
                (match rows with
                 | first :: _ =>
                     Some (mkYearExpiry (contract_year first) (expiry_date first))
                 | [] => None
                 end)
                (mkMonthInfo name abbr)
          | None => BasicMetadata (mkMonthInfo name abbr)
          end).
Proof.
  unfold returned, query_with, parse_monthly_generic, bind, get_df. cbn [fst snd].
  destruct (apply_point_in_time point_in_time (self_df w)) as [ref result_df] eqn:Ep.
  destruct (Re.match_monthly security) as [[letters digits]|]; [|discriminate].
  destruct (dict_get month_map (upper letters)) as [name|] eqn:Ed; [|discriminate].
  intros H. exists (upper letters), (int digits), name.
  split; [reflexivity|]. split; [exact Ed|].
  destruct point_in_time as [p|].
  - assert (Href : exists t, ref = Some t).
    { unfold apply_point_in_time in Ep. destruct p; inversion Ep; eauto. }
    destruct Href as [t ->]. cbn zeta in H.
    destruct (len _ >=? int digits); [|discriminate H].
    assert (Hexp : forall first tl,
               filter (fun r => contract_year r =? year (date t))
                 (filter (month_is name) result_df) = first :: tl ->
               ts_ltb (to_datetime (expiry_date first)) t = false).
    { intros first tl Ec.
      apply (apply_point_in_time_kept (Some p) (self_df w) result_df t first Ep).
      assert (Hin : In first (first :: tl)) by now left.
      rewrite <- Ec in Hin.
      apply filter_In in Hin as [Hin _]. now apply filter_In in Hin as [Hin _]. }
    destruct (filter (fun r => contract_year r =? year (date t))
                (filter (month_is name) result_df)) as [|first tl] eqn:Ec.
    + cbn [fst snd ret] in H.
      destruct (slice _ _ _) as [|r0 rest] eqn:Es;
        cbn [fst snd ret print] in H; inversion H; subst; reflexivity.
    + rewrite (Hexp first tl eq_refl) in H. cbn [fst snd ret] in H.
      destruct (slice _ _ _) as [|r0 rest] eqn:Es;
        cbn [fst snd ret print] in H; inversion H; subst; reflexivity.
  - unfold apply_point_in_time in Ep. inversion Ep; subst. cbn zeta in H.
    destruct (len _ >=? int digits); [|discriminate H].
    cbn [fst ret] in H. inversion H. reflexivity.
Qed.

(** X10.  The metadata of a monthly-generic result agrees with the frame
    it rides on.  Asked with a point in time, [next_available] is the
    contract year and expiry date of the returned row (and is missing when
    the frame has no row), [month_info] is the parsed month, and
    [expired_contracts] is empty; asked without, the metadata is
    [month_info] alone. *)
Theorem monthly_metadata_matches_row
    (security : string) (point_in_time : option PointInTime) (w : World)
    (rows : list Row) (attrs : option Metadata) :
  returned (query security MONTHLY_GENERIC point_in_time) w =
    CalendarFrame rows attrs ->
  exists abbr n name,
    parse_monthly_generic security = Some (abbr, n) /\
    dict_get month_map abbr = Some name /\
    attrs =
    Some (match point_in_time with
          | Some _ =>
              FullMetadata []
                (match rows with
                 | first :: _ =>
                     Some (mkYearExpiry (contract_year first) (expiry_date first))
                 | [] => None
                 end)
                (mkMonthInfo name abbr)
          | None => BasicMetadata (mkMonthInfo name abbr)
          end).
Proof. apply monthly_metadata_of. Qed.

Lemma monthly_metadata_matches_row_witness :
  exists abbr n name,
    parse_monthly_generic "TFMapr1" = Some (abbr, n) /\
    dict_get month_map abbr = Some name /\
    Some (FullMetadata [] (Some (mkYearExpiry 2025 (mkDate 2025 4 15)))
            (mkMonthInfo "April" "APR")) =
    Some (FullMetadata []
            (Some (mkYearExpiry (contract_year apr25) (expiry_date apr25)))
            (mkMonthInfo name abbr)).
Proof.
  apply (monthly_metadata_matches_row "TFMapr1" (on_day 2025 1 12) sample_world
           [apr25]).
  reflexivity.
Defined.

(** X11.  Sequence number [0] is accepted by the monthly-generic branch:
    the query returns an empty frame that still carries the calendar
    columns and the metadata, and not the column-less [pd.DataFrame()] of a
    sequence number that is too large. *)
Theorem monthly_sequence_zero
    (security abbr name : string) (point_in_time : option PointInTime) (w : World) :
  parse_monthly_generic security = Some (abbr, 0) ->
  dict_get month_map abbr = Some name ->
  returned (query security MONTHLY_GENERIC point_in_time) w =
  CalendarFrame []
    (Some (match point_in_time with
           | Some _ => FullMetadata [] None (mkMonthInfo name abbr)
           | None => BasicMetadata (mkMonthInfo name abbr)
           end)) /\
  returned (query security MONTHLY_GENERIC point_in_time) w <> EmptyDataFrame.
Proof.
  intros Hp Hd.
  pose proof (query_with_monthly query_spread security point_in_time w) as H.
  rewrite Hp in H. destruct H as (name' & Hd' & H). cbv zeta in H.
  assert (Hge : (len (monthly_candidates (self_df w) name' point_in_time) >=? 0) = true).
  { unfold len. destruct (Z.geb_spec (Z.of_nat (List.length
      (monthly_candidates (self_df w) name' point_in_time))) 0); [reflexivity|lia]. }
  rewrite Hge in H. destruct H as (attrs & H).
  rewrite slice_zero in H.
  destruct (monthly_metadata_of query_spread security point_in_time w [] attrs H)
    as (abbr2 & n2 & name2 & Hp2 & Hd2 & ->).
  assert (abbr2 = abbr) by congruence. subst abbr2.
  assert (name2 = name) by congruence. subst name2.
  unfold query. rewrite H. split; [reflexivity | discriminate].
Qed.

Lemma monthly_sequence_zero_witness :
  returned (query "TFMAPR0" MONTHLY_GENERIC (on_day 2025 1 12)) sample_world
  <> returned (query "TFMAPR9" MONTHLY_GENERIC (on_day 2025 1 12)) sample_world.
Proof.
  destruct (monthly_sequence_zero "TFMAPR0" "APR" "April" (on_day 2025 1 12)
              sample_world eq_refl eq_refl) as [Hzero _].
  rewrite Hzero. discriminate.
Defined.

End MonthlyMetadata.

(** * The two legs of a spread *)

Section SpreadLegs.

Lemma match_spread_groups (spread_code m1 m2 digits : string) :
  Re.match_spread spread_code = Some (m1, m2, digits) ->
  digits <> EmptyString /\ all_chars is_digit digits = true.
Proof.
  unfold Re.match_spread.
  destruct (strip_prefix "TFM" spread_code) as [rest|]; [|discriminate].
  destruct (span is_digit (substring 6 (String.length rest - 6) rest))
    as [dg tail] eqn:E.
  destruct (_ && _)%bool eqn:Hc; [|discriminate].
  intros H. inversion H; subst.
  apply andb_true_iff in Hc as [_ Hne].
  apply span_spec in E as (_ & Hd & _).
  split; [|exact Hd].
  intros ->. discriminate Hne.
Qed.

(** A returned spread frame, taken apart. *)
Lemma query_spread_inversion
    (spread_code : string) (point_in_time : option PointInTime) (w : World)
    (row : SpreadRow) (meta : SpreadMetadata) :
  returned (query spread_code SPREAD point_in_time) w = SpreadFrame row meta ->
  exists m1 m2 digits full1 full2 first1 rest attrs contract2 others,
    Re.match_spread spread_code = Some (m1, m2, digits) /\
    dict_get month_map m1 = Some full1 /\
    dict_get month_map m2 = Some full2 /\
    returned (query (monthly_code m1 (int digits)) MONTHLY_GENERIC point_in_time) w
      = CalendarFrame (first1 :: rest) attrs /\
    filter (fun r => (month_is full2 r &&
                      (contract_year r =?
                       second_leg_year full1 full2 (contract_year first1)))%bool)
           (self_df w) = contract2 :: others /\
    SpreadFrame row meta =
    spread_frame spread_code m1 m2 full1 full2 first1 contract2
      (second_leg_year full1 full2 (contract_year first1)).
Proof.
  intros Hq.
  destruct (parse_spread spread_code) as [[[a b] n]|] eqn:Hp.
  2:{ rewrite (parse_spread_none _ point_in_time w Hp) in Hq. discriminate Hq. }
  unfold parse_spread in Hp.
  destruct (Re.match_spread spread_code) as [[[m1 m2] digits]|] eqn:Hmatch;
    [|discriminate Hp].
  destruct (dict_get month_map m1) as [full1|] eqn:H1; [|discriminate Hp].
  destruct (dict_get month_map m2) as [full2|] eqn:H2; [|discriminate Hp].
  rewrite (query_spread_returned spread_code point_in_time w m1 m2 digits full1 full2
             Hmatch H1 H2) in Hq.
  destruct (returned (query (monthly_code m1 (int digits)) MONTHLY_GENERIC
                        point_in_time) w) as [|rows attrs|? ?] eqn:Eleg;
    try discriminate Hq.
  destruct rows as [|first1 rest]; [discriminate Hq|].
  cbv zeta in Hq.
  destruct (filter _ (self_df w)) as [|contract2 others] eqn:Ef; [discriminate Hq|].
  exists m1, m2, digits, full1, full2, first1, rest, attrs, contract2, others.
  repeat split; auto.
Qed.

(** X12.  Every spread frame is coherent: it echoes the spread code, its
    label is the one of the metadata, its two contract codes are those of
    the metadata legs, and the second leg's year is the first leg's year
    or the year after; it is the year after whenever both legs name the
    same month (a [DEC]-[DEC] spread). *)
Theorem spread_frame_coherent
    (code : string) (point_in_time : option PointInTime) (w : World)
    (row : SpreadRow) (meta : SpreadMetadata) :
  returned (query code SPREAD point_in_time) w = SpreadFrame row meta ->
  spread_code row = code /\
  spread_type row = meta_spread_type meta /\
  contract1_code row = leg_code (leg1 meta) /\
  contract2_code row = leg_code (leg2 meta) /\
  (leg_year (leg2 meta) = leg_year (leg1 meta) \/
   leg_year (leg2 meta) = leg_year (leg1 meta) + 1) /\
  (leg_month (leg1 meta) = leg_month (leg2 meta) ->
   leg_year (leg2 meta) = leg_year (leg1 meta) + 1).
Proof.
  intros Hq.
  apply query_spread_inversion in Hq
    as (m1 & m2 & digits & full1 & full2 & first1 & rest & attrs & contract2 & others
        & _ & _ & _ & _ & _ & Hf).
  unfold spread_frame in Hf. inversion Hf; subst row meta. cbn.
  repeat split; auto.
  - unfold second_leg_year. destruct (month_idx full2 <=? month_idx full1); auto.
  - intros ->. unfold second_leg_year. now rewrite Z.leb_refl.
Qed.

Lemma spread_frame_coherent_witness :
  returned (query "TFMDECDEC1" SPREAD (on_day 2025 1 1)) december_world =
    spread_frame "TFMDECDEC1" "DEC" "DEC" "December" "December" dec25 dec26 2026 /\
  leg_year (mkLeg (TFM_Code dec26) "December" 2026) =
  leg_year (mkLeg (TFM_Code dec25) "December" 2025) + 1.
Proof.
  split; [reflexivity|].
  destruct (spread_frame_coherent "TFMDECDEC1" (on_day 2025 1 1) december_world
              (mkSpreadRow "TFMDECDEC1" (TFM_Code dec25) (expiry_date dec25)
                 (TFM_Code dec26) (expiry_date dec26) "DEC-DEC")
              (mkSpreadMetadata "DEC-DEC"
                 (mkLeg (TFM_Code dec25) "December" 2025)
                 (mkLeg (TFM_Code dec26) "December" 2026))
              eq_refl) as (_ & _ & _ & _ & _ & Hsame).
  exact (Hsame eq_refl).
Defined.

Lemma spread_first_leg_of
    (spread_code : string) (point_in_time : option PointInTime) (w : World)
    (row : SpreadRow) (meta : SpreadMetadata) :
  returned (query spread_code SPREAD point_in_time) w = SpreadFrame row meta ->
  exists first1,
    In first1 (self_df w) /\
    TFM_Code first1 = contract1_code row /\
    expiry_date first1 = contract1_expiry row /\
    month_name first1 = Some (leg_month (leg1 meta)) /\
    contract_year first1 = leg_year (leg1 meta) /\
    (forall p, point_in_time = Some p ->
       ts_gtb (to_datetime (contract1_expiry row)) (reference_date_of p) = true).
Proof.
  intros Hq.
  apply query_spread_inversion in Hq
    as (m1 & m2 & digits & full1 & full2 & first1 & rest & attrs & contract2 & others
        & Hmatch & H1 & H2 & Hleg & _ & Hf).
  unfold spread_frame in Hf. inversion Hf; subst row meta. cbn.
  assert (Hin : In first1 (frame_rows
                  (returned (query (monthly_code m1 (int digits)) MONTHLY_GENERIC
                               point_in_time) w)))
    by (rewrite Hleg; now left).
  unfold query in Hin.
  apply monthly_rows_nth in Hin as (abbr & n & name & Hp & Hd & _ & Hnth).
  assert (Habbr : is_month_abbr m1)
    by (unfold is_month_abbr; now apply (dict_get_In month_map m1 full1)).
  apply match_spread_groups in Hmatch as [_ Hdigits].
  rewrite (parse_monthly_code m1 (int digits) Habbr
             (int_digits_nonneg digits Hdigits)) in Hp.
  inversion Hp; subst abbr n.
  assert (name = full1) by congruence. subst name.
  apply nth_error_In in Hnth.
  exists first1. destruct (candidates_In _ _ _ _ Hnth) as [Ht Hm].
  repeat split; auto.
  intros p ->. now apply (candidates_not_expired (self_df w) full1 p).
Qed.

(** X13.  The first leg of a returned spread is a row of the calendar
    table for the first month, with the year the metadata reports; when the
    spread is asked with a point in time, that contract expires strictly
    after the reference date. *)
Theorem spread_first_leg_active
    (spread_code : string) (point_in_time : option PointInTime) (w : World)
    (row : SpreadRow) (meta : SpreadMetadata) :
  returned (query spread_code SPREAD point_in_time) w = SpreadFrame row meta ->
  exists first1,
    In first1 (self_df w) /\
    TFM_Code first1 = contract1_code row /\
    expiry_date first1 = contract1_expiry row /\
    month_name first1 = Some (leg_month (leg1 meta)) /\
    contract_year first1 = leg_year (leg1 meta) /\
    (forall p, point_in_time = Some p ->
       ts_gtb (to_datetime (contract1_expiry row)) (reference_date_of p) = true).
Proof. apply spread_first_leg_of. Qed.

Lemma spread_first_leg_active_witness :
  exists first1,
    In first1 (self_df sample_world) /\ TFM_Code first1 = "TFM\Z25" /\
    ts_gtb (to_datetime (mkDate 2025 12 19)) (mkTimestamp (mkDate 2025 1 1) 0) = true.
Proof.
  destruct (spread_first_leg_active "TFMDECJUN1" (on_day 2025 1 1) sample_world
              (mkSpreadRow "TFMDECJUN1" (TFM_Code dec25) (expiry_date dec25)
                 (TFM_Code jun26) (expiry_date jun26) "DEC-JUN")
              (mkSpreadMetadata "DEC-JUN"
                 (mkLeg (TFM_Code dec25) "December" 2025)
                 (mkLeg (TFM_Code jun26) "June" 2026))
              eq_refl) as (first1 & Hin & Hc & _ & _ & _ & Hactive).
  exists first1. split; [exact Hin|]. split; [exact Hc|].
  exact (Hactive (At (mkTimestamp (mkDate 2025 1 1) 0)) eq_refl).
Defined.

Lemma substring_whole (s : string) : substring 0 (String.length s) s = s.
Proof. induction s as [|c s IH]; simpl; congruence. Qed.

Lemma substring_none (s : string) : substring 0 0 s = EmptyString.
Proof. now destruct s. Qed.

Lemma is_month_abbr_shape (m : string) :
  is_month_abbr m ->
  exists a b c full,
    m = String a (String b (String c EmptyString)) /\
    is_upper a = true /\ is_upper b = true /\ is_upper c = true /\
    dict_get month_map m = Some full.
Proof.
  unfold is_month_abbr. simpl.
  intros H.
  repeat (destruct H as [<-|H];
          [do 4 eexists; repeat split; reflexivity|]).
  contradiction.
Qed.

(** X14.  Writing a spread as [TFM<Mon1><Mon2><n>] and parsing it gives
    the parts back: for month abbreviations of [month_map] and a sequence
    number [n >= 0], the spread grammar accepts the text as
    [(Mon1, Mon2, n)]. *)
Theorem spread_code_round_trip (m1 m2 : string) (n : Z) :
  is_month_abbr m1 -> is_month_abbr m2 -> 0 <= n ->
  parse_spread (spread_code_text m1 m2 n) = Some (m1, m2, n).
Proof.
  intros Hm1 Hm2 Hn.
  destruct (is_month_abbr_shape m1 Hm1) as (a1 & b1 & c1 & full1 & -> & Ha1 & Hb1 & Hc1 & Hd1).
  destruct (is_month_abbr_shape m2 Hm2) as (a2 & b2 & c2 & full2 & -> & Ha2 & Hb2 & Hc2 & Hd2).
  destruct (str_nonneg_shape n Hn) as (c & s & E & Hc & Hs).
  assert (Hall : all_chars is_digit (str n) = true)
    by (rewrite E; simpl; now rewrite Hc, Hs).
  unfold parse_spread, spread_code_text, Re.match_spread.
  cbn [append strip_prefix Ascii.eqb Bool.eqb substring String.length Nat.sub
       all_chars Nat.eqb].
  rewrite Ha1, Hb1, Hc1, Ha2, Hb2, Hc2.
  rewrite Nat.sub_0_r, substring_whole, (span_whole _ _ Hall).
  rewrite !substring_none. cbn [String.length Nat.eqb all_chars andb].
  rewrite E at 1. cbn [String.eqb negb].
  rewrite Hd1, Hd2, int_str. reflexivity.
Qed.

Lemma spread_code_round_trip_witness :
  parse_spread (spread_code_text "DEC" "JUN" 12) = Some ("DEC", "JUN", 12).
Proof.
  apply (spread_code_round_trip "DEC" "JUN" 12).
  - unfold is_month_abbr. simpl. auto 20.
  - unfold is_month_abbr. simpl. auto 20.
  - lia.
Defined.

End SpreadLegs.

(** * [query_monthly_generic]: asking by full month name *)

Section ByMonthName.

Lemma month_maps_inverse (abbr name : string) :
  dict_get month_map abbr = Some name ->
  dict_get month_abbr_map name = Some abbr.
Proof.
  unfold month_map. cbn [dict_get].
  repeat match goal with
         | |- (if String.eqb ?k abbr then _ else _) = _ -> _ =>
             destruct (String.eqb_spec k abbr) as [<-|_];
               [intros H; inversion H; reflexivity|]
         end.
  discriminate.
Qed.

(** The frame of [query_monthly_generic], read off the code's own sort. *)
Lemma query_monthly_generic_ranked (abbr name : string) (n : Z) (w : World) :
  dict_get month_map abbr = Some name -> 1 <= n ->
  returned (query_monthly_generic name n) w =
  month_frame name abbr
    (row_at (sort_values Z.leb contract_year (filter (month_is name) (self_df w))) n).
Proof.
  intros Hd Hn.
  unfold query_monthly_generic. rewrite (month_maps_inverse abbr name Hd).
  fold (monthly_code abbr n).
  assert (Habbr : is_month_abbr abbr)
    by (unfold is_month_abbr; now apply (dict_get_In month_map abbr name)).
  pose proof (query_with_monthly query_spread (monthly_code abbr n) None w) as H.
  fold (query (monthly_code abbr n) MONTHLY_GENERIC None) in H.
  rewrite (parse_monthly_code abbr n Habbr) in H by lia.
  destruct H as (name' & Hd' & H).
  assert (name' = name) by congruence. subst name'.
  cbv zeta in H. unfold monthly_candidates, apply_point_in_time in H.
  unfold row_at.
  set (ranked := sort_values Z.leb contract_year (filter (month_is name) (self_df w)))
    in *.
  destruct (len ranked >=? n) eqn:E.
  - destruct H as (attrs & H).
    destruct (monthly_metadata_of query_spread (monthly_code abbr n) None w _ attrs H)
      as (abbr2 & n2 & name2 & Hp2 & Hd2 & ->).
    rewrite (parse_monthly_code abbr n Habbr) in Hp2 by lia.
    inversion Hp2; subst abbr2 n2.
    assert (name2 = name) by congruence. subst name2.
    rewrite H, slice_nth by lia.
    destruct (nth_error ranked (Z.to_nat (n - 1))) eqn:Enth; [reflexivity|].
    apply nth_error_None in Enth. unfold len in E.
    destruct (Z.geb_spec (Z.of_nat (List.length ranked)) n); [lia|discriminate].
  - rewrite H.
    assert (Enth : nth_error ranked (Z.to_nat (n - 1)) = None).
    { apply nth_error_None. unfold len in E.
      destruct (Z.geb_spec (Z.of_nat (List.length ranked)) n); [discriminate|lia]. }
    now rewrite Enth.
Qed.

(** X15.  Asked by the full name of a month, [query_monthly_generic]
    ranks all contracts of that month by [contract_year], expired or not.
    For a sequence number [n >= 1] the result is the row at position [n-1]
    of an ascending ranking of the month's rows, with the month as its only
    metadata, and [pd.DataFrame()] when the month has fewer than [n]
    contracts.  Against every ascending ranking of the month's rows the
    returned row carries the [contract_year] found there at position [n-1],
    and it is that very row when no two contracts of the month share a
    year. *)
Theorem query_monthly_generic_by_name
    (abbr name : string) (n : Z) (w : World) :
  dict_get month_map abbr = Some name -> 1 <= n ->
  let month_rows := filter (month_is name) (self_df w) in
  (exists ranked,
     ascending_sort_of Z.leb contract_year ranked month_rows /\
     returned (query_monthly_generic name n) w = month_frame name abbr (row_at ranked n)) /\
  (forall ranked,
     ascending_sort_of Z.leb contract_year ranked month_rows ->
     exists rows,
       returned (query_monthly_generic name n) w = month_frame name abbr rows /\
       map contract_year rows = map contract_year (row_at ranked n) /\
       (NoDup (map contract_year month_rows) -> rows = row_at ranked n)) /\
  (len month_rows < n -> returned (query_monthly_generic name n) w = EmptyDataFrame).
Proof.
  intros Hd Hn month_rows.
  pose proof (query_monthly_generic_ranked abbr name n w Hd Hn) as Hq.
  fold month_rows in Hq.
  pose proof (sort_values_arrangement Z.leb contract_year Zleb_total month_rows)
    as Hmine.
  split; [|split].
  - exists (sort_values Z.leb contract_year month_rows). split; [exact Hmine | exact Hq].
  - intros ranked Hranked.
    exists (row_at (sort_values Z.leb contract_year month_rows) n).
    split; [exact Hq|]. split.
    + apply row_at_keys.
      apply (arrangement_keys Z.leb contract_year Zleb_trans Zleb_antisym
               ranked _ month_rows); assumption.
    + intros Hnd. f_equal.
      apply (arrangement_unique Z.leb contract_year Zleb_trans Zleb_antisym
               ranked _ month_rows); assumption.
  - intros Hlen. rewrite Hq. unfold row_at.
    assert (Hnone : nth_error (sort_values Z.leb contract_year month_rows)
                      (Z.to_nat (n - 1)) = None).
    { apply nth_error_None. rewrite sort_values_length. unfold len in Hlen. lia. }
    now rewrite Hnone.
Qed.

(** The second April of the sample calendar, ranked by hand; and a month
    with two contracts of one year, where the year of the first is fixed. *)
Lemma query_monthly_generic_by_name_witness :
  returned (query_monthly_generic "April" 2) sample_world =
    CalendarFrame [apr26] (Some (BasicMetadata (mkMonthInfo "April" "APR"))) /\
  returned (query_monthly_generic "April" 3) sample_world = EmptyDataFrame /\
  (exists r,
     returned (query_monthly_generic "April" 1) tied_world =
       CalendarFrame [r] (Some (BasicMetadata (mkMonthInfo "April" "APR"))) /\
     contract_year r = 2025).
Proof.
  split; [|split].
  - destruct (query_monthly_generic_by_name "APR" "April" 2 sample_world eq_refl)
      as (_ & Hany & _); [lia|].
    destruct (Hany [apr25; apr26]) as (rows & Hq & _ & Hrows).
    + split; [apply perm_swap | repeat constructor].
    + rewrite Hq, Hrows; [reflexivity|].
      simpl. repeat constructor; simpl; intuition discriminate.
  - destruct (query_monthly_generic_by_name "APR" "April" 3 sample_world eq_refl)
      as (_ & _ & Hfew); [lia|].
    apply Hfew. reflexivity.
  - destruct (query_monthly_generic_by_name "APR" "April" 1 tied_world eq_refl)
      as (_ & Hany & _); [lia|].
    destruct (Hany [apr25_bis; apr25]) as (rows & Hq & Hyears & _).
    + split; [apply perm_swap | repeat constructor].
    + destruct rows as [|r [|r' rows]]; try discriminate Hyears.
      exists r. split; [exact Hq|]. now inversion Hyears.
Defined.

End ByMonthName.

(** * [get_spread_prices] *)

Section SpreadPriceFacts.
Context {price : Type} (sub add : price -> price -> price) (half : price -> price).

Lemma ts_eqb_eq (a b : Timestamp) : ts_eqb a b = true <-> a = b.
Proof.
  unfold ts_eqb. split.
  - destruct a as [[y1 m1 dd1] t1], b as [[y2 m2 dd2] t2].
    unfold ts_compare, date_compare. cbn [date time_of_day year month day].
    destruct (Z.compare_spec y1 y2); cbn [lex]; try discriminate.
    destruct (Z.compare_spec m1 m2); cbn [lex]; try discriminate.
    destruct (Z.compare_spec dd1 dd2); cbn [lex]; try discriminate.
    destruct (Z.compare_spec t1 t2); try discriminate.
    intros _. now subst.
  - intros ->. now rewrite ts_compare_refl.
Qed.

Lemma merge_on_Timestamp_In (left right : list (Bar price)) (l r : Bar price) :
  In (l, r) (merge_on_Timestamp left right) <->
  In l left /\ In r right /\ bar_Timestamp l = bar_Timestamp r.
Proof.
  unfold merge_on_Timestamp. rewrite in_flat_map. split.
  - intros (x & Hx & Hin). apply in_map_iff in Hin as (y & Heq & Hy).
    inversion Heq; subst x y. apply filter_In in Hy as [Hy Ht].
    apply ts_eqb_eq in Ht. auto.
  - intros (Hl & Hr & Ht). exists l. split; [exact Hl|].
    apply in_map_iff. exists r. split; [reflexivity|].
    apply filter_In. split; [exact Hr | now apply ts_eqb_eq].
Qed.

(** The rows [get_spread_prices] returns for a spread frame. *)
Lemma get_spread_prices_rows
    (spread : SpreadRow) (meta : SpreadMetadata) (intraday_data : list (Bar price))
    (w : World) :
  prices_rows (returned (get_spread_prices sub add half (SpreadFrame spread meta)
                           intraday_data) w) =
  map (spread_bar sub add half spread)
      (merge_on_Timestamp
         (filter (fun b => String.eqb (symbol b) (contract1_code spread)) intraday_data)
         (filter (fun b => String.eqb (symbol b) (contract2_code spread)) intraday_data)).
Proof.
  unfold returned, get_spread_prices, bind. cbn [fst snd].
  destruct (filter (fun b => String.eqb (symbol b) (contract1_code spread))
              intraday_data) as [|b1 left]; [reflexivity|].
  destruct (filter (fun b => String.eqb (symbol b) (contract2_code spread))
              intraday_data) as [|b2 right].
  - cbn [fst snd ret prices_rows].
    unfold merge_on_Timestamp. cbn [filter map].
    induction (b1 :: left) as [|x xs IH]; [reflexivity|]. cbn [flat_map app]. exact IH.
  - destruct (merge_on_Timestamp (b1 :: left) (b2 :: right)); reflexivity.
Qed.

(** X16.  Each price row of a spread is made from one bar of each leg
    taken at the same timestamp, and every such pair of bars gives a row:
    the row carries the first leg's timestamp, date and time, the
    differences of the four prices, half the sum of the volumes, and the
    spread code as its symbol. *)
Theorem spread_prices_pair_bars
    (spread : SpreadRow) (meta : SpreadMetadata) (intraday_data : list (Bar price))
    (w : World) (out : SpreadBar price) :
  In out (prices_rows (returned (get_spread_prices sub add half
                                   (SpreadFrame spread meta) intraday_data) w)) <->
  exists b1 b2,
    In b1 intraday_data /\ In b2 intraday_data /\
    symbol b1 = contract1_code spread /\ symbol b2 = contract2_code spread /\
    bar_Timestamp b1 = bar_Timestamp b2 /\
    out = mkSpreadBar (bar_Timestamp b1) (bar_Date b1) (bar_Time b1)
            (sub (OPEN b1) (OPEN b2)) (sub (HIGH b1) (HIGH b2))
            (sub (LOW b1) (LOW b2)) (sub (CLOSE b1) (CLOSE b2))
            (half (add (VOLUME b1) (VOLUME b2)))
            (spread_code spread) (spread_code spread) (spread_type spread)
            (contract1_code spread) (contract2_code spread).
Proof.
  rewrite get_spread_prices_rows, in_map_iff. split.
  - intros ([b1 b2] & <- & Hin).
    apply merge_on_Timestamp_In in Hin as (H1 & H2 & Ht).
    apply filter_In in H1 as [H1 Hs1]. apply filter_In in H2 as [H2 Hs2].
    apply String.eqb_eq in Hs1, Hs2.
    exists b1, b2. repeat split; auto.
  - intros (b1 & b2 & H1 & H2 & Hs1 & Hs2 & Ht & ->).
    exists (b1, b2). split; [reflexivity|].
    apply merge_on_Timestamp_In.
    repeat split; auto; apply filter_In; split; auto; now apply String.eqb_eq.
Qed.

Lemma merge_nothing_right (left : list (Bar price)) :
  merge_on_Timestamp left [] = [].
Proof.
  unfold merge_on_Timestamp. induction left as [|x xs IH]; [reflexivity|].
  cbn [flat_map filter map app]. exact IH.
Qed.

Lemma get_spread_prices_frame
    (spread : SpreadRow) (meta : SpreadMetadata) (intraday_data : list (Bar price))
    (w : World) :
  returned (get_spread_prices sub add half (SpreadFrame spread meta) intraday_data) w =
  match merge_on_Timestamp
          (filter (fun b => String.eqb (symbol b) (contract1_code spread)) intraday_data)
          (filter (fun b => String.eqb (symbol b) (contract2_code spread)) intraday_data)
  with
  | [] => NoPrices
  | pairs => Prices (map (spread_bar sub add half spread) pairs)
  end.
Proof.
  unfold returned, get_spread_prices, bind. cbn [fst snd].
  destruct (filter (fun b => String.eqb (symbol b) (contract1_code spread))
              intraday_data) as [|b1 left]; [reflexivity|].
  destruct (filter (fun b => String.eqb (symbol b) (contract2_code spread))
              intraday_data) as [|b2 right].
  - now rewrite merge_nothing_right.
  - destruct (merge_on_Timestamp (b1 :: left) (b2 :: right)); reflexivity.
Qed.

(** X17.  [get_spread_prices] returns a price frame exactly when it is
    given a spread frame both of whose legs have a bar at a common
    timestamp, and that frame is never empty; in every other case (another
    kind of frame, a leg without bars, no common timestamp) it returns
    [pd.DataFrame()]. *)
Theorem spread_prices_need_common_timestamp
    (spread_result : DataFrame) (intraday_data : list (Bar price)) (w : World) :
  ((exists rows,
      returned (get_spread_prices sub add half spread_result intraday_data) w
        = Prices rows) <->
   (exists spread meta b1 b2,
      spread_result = SpreadFrame spread meta /\
      In b1 intraday_data /\ In b2 intraday_data /\
      symbol b1 = contract1_code spread /\ symbol b2 = contract2_code spread /\
      bar_Timestamp b1 = bar_Timestamp b2)) /\
  (forall rows,
     returned (get_spread_prices sub add half spread_result intraday_data) w
       = Prices rows -> rows <> []) /\
  (~ (exists spread meta b1 b2,
        spread_result = SpreadFrame spread meta /\
        In b1 intraday_data /\ In b2 intraday_data /\
        symbol b1 = contract1_code spread /\ symbol b2 = contract2_code spread /\
        bar_Timestamp b1 = bar_Timestamp b2) ->
   returned (get_spread_prices sub add half spread_result intraday_data) w = NoPrices).
Proof.
  destruct spread_result as [|rows0 attrs0|spread meta].
  - split; [split|split].
    + intros [rows H]. discriminate H.
    + intros (? & ? & ? & ? & H & _). discriminate H.
    + intros rows H. discriminate H.
    + reflexivity.
  - split; [split|split].
    + intros [rows H]. discriminate H.
    + intros (? & ? & ? & ? & H & _). discriminate H.
    + intros rows H. discriminate H.
    + reflexivity.
  - rewrite get_spread_prices_frame.
    destruct (merge_on_Timestamp _ _) as [|[b1 b2] pairs] eqn:Em.
    + split; [split|split].
      * intros [rows H]. discriminate H.
      * intros (spread' & meta' & b1 & b2 & Heq & H1 & H2 & Hs1 & Hs2 & Ht).
        inversion Heq; subst spread' meta'.
        assert (Hin : In (b1, b2) []).
        { rewrite <- Em. apply merge_on_Timestamp_In.
          repeat split; auto; apply filter_In; split; auto; now apply String.eqb_eq. }
        contradiction.
      * intros rows H. discriminate H.
      * reflexivity.
    + assert (Hin : In (b1, b2) ((b1, b2) :: pairs)) by now left.
      rewrite <- Em in Hin.
      apply merge_on_Timestamp_In in Hin as (H1 & H2 & Ht).
      apply filter_In in H1 as [H1 Hs1]. apply filter_In in H2 as [H2 Hs2].
      apply String.eqb_eq in Hs1, Hs2.
      split; [split|split].
      * intros _. exists spread, meta, b1, b2. repeat split; auto.
      * intros _. eexists. reflexivity.
      * intros rows H. inversion H. discriminate.
      * intros Hno. exfalso. apply Hno.
        exists spread, meta, b1, b2. repeat split; auto.
Qed.

End SpreadPriceFacts.

Lemma spread_prices_pair_bars_witness :
  In (mkSpreadBar (mkTimestamp (mkDate 2025 1 2) 9) (mkDate 2025 1 2) "09:00"
        10 11 10 11 75 "TFMDECJUN1" "TFMDECJUN1" "DEC-JUN" "TFM\Z25" "TFM\M26")
     (prices_rows (returned (get_spread_prices Z.sub Z.add (fun v => v / 2)
                               dec_jun_spread sample_bars) sample_world)).
Proof.
  apply (spread_prices_pair_bars Z.sub Z.add (fun v => v / 2)).
  exists (mkBar "TFM\Z25" (mkTimestamp (mkDate 2025 1 2) 9) (mkDate 2025 1 2)
            "09:00" 40 42 39 41 100),
         (mkBar "TFM\M26" (mkTimestamp (mkDate 2025 1 2) 9) (mkDate 2025 1 2)
            "09:00" 30 31 29 30 50).
  simpl. repeat split; auto.
Defined.

Lemma spread_prices_need_common_timestamp_witness :
  returned (get_spread_prices Z.sub Z.add (fun v => v / 2)
              (CalendarFrame [dec25] None) sample_bars) sample_world = NoPrices.
Proof.
  apply (spread_prices_need_common_timestamp Z.sub Z.add (fun v => v / 2)).
  intros (spread & meta & b1 & b2 & H & _). discriminate H.
Defined.

(** * Queries one after another *)

Section Sequences.

Ltac determined_walk :=
  match goal with
  | |- table_determined (ret _) => apply determined_ret
  | |- table_determined get_df => apply determined_get_df
  | |- table_determined (print _) => apply determined_print
  | |- table_determined (for_each _ _) => apply determined_for_each; intro
  | |- table_determined (bind _ _) => apply determined_bind; [|intro]
  | |- table_determined (let '(_, _) := ?p in _) => destruct p
  | |- table_determined (match ?x with _ => _ end) => destruct x
  | |- table_determined (if ?b then _ else _) => destruct b
  end.

Lemma query_spread_determined (spread_code : string)
    (point_in_time : option PointInTime) :
  table_determined (query_spread spread_code point_in_time).
Proof.
  unfold query_spread, query_spread_with.
  repeat first
    [ apply query_with_determined; intros; apply determined_ret
    | determined_walk ].
Qed.

Lemma query_determined (security : string) (security_type : SecurityType)
    (point_in_time : option PointInTime) :
  table_determined (query security security_type point_in_time).
Proof.
  apply query_with_determined. intros. apply query_spread_determined.
Qed.

(** X18.  Queries do not disturb one another: the frame a query returns
    after any other query has run (and has written to the console) is the
    frame it returns when run first; in particular asking the same thing
    twice gives the same answer twice. *)
Theorem query_after_query
    (security1 security2 : string) (type1 type2 : SecurityType)
    (pit1 pit2 : option PointInTime) (w : World) :
  returned (query security2 type2 pit2) (snd (query security1 type1 pit1 w)) =
  returned (query security2 type2 pit2) w /\
  returned (query security1 type1 pit1) (snd (query security1 type1 pit1 w)) =
  returned (query security1 type1 pit1) w.
Proof.
  assert (Hkeep : self_df (snd (query security1 type1 pit1 w)) = self_df w).
  { apply query_with_keeps. intros. apply query_spread_keeps. }
  split; unfold returned; now apply query_determined.
Qed.

End Sequences.

(** * Loading, then looking a contract up *)

Section LoadAndLookup.

(** X19.  A contract is found under the code text of the calendar file.
    In a store built by [clean_data] with unique cleaned codes, a file row
    whose code is [ENDEX::F:] followed by a text free of that prefix is the
    single row a specific lookup returns, both for the code as the file
    writes it and for the code without the prefix. *)
Theorem loaded_code_lookup
    (df : list RawRow) (console : list string) (raw : RawRow) (body : string) :
  In raw df ->
  NoDup (map TFM_Code (clean_data df)) ->
  raw_TFM_Code raw = "ENDEX::F:" ++ body ->
  contains "ENDEX::F:" body = false ->
  TFM_Code (clean_row raw) = body /\
  returned (query_specific (raw_TFM_Code raw)) (mkWorld (clean_data df) console) =
    CalendarFrame [clean_row raw] None /\
  returned (query_specific body) (mkWorld (clean_data df) console) =
    CalendarFrame [clean_row raw] None.
Proof.
  intros Hin Hnd Hraw Hfree.
  assert (Hcode : TFM_Code (clean_row raw) = body).
  { unfold clean_row. cbn [TFM_Code]. rewrite Hraw. now apply clean_prefixed. }
  assert (Hrow : In (clean_row raw) (clean_data df))
    by (unfold clean_data; now apply in_map).
  split; [exact Hcode|].
  unfold returned, query_specific, query, query_with, bind, get_df.
  cbn [fst snd apply_point_in_time ret self_df].
  split.
  - rewrite Hraw, replace_first_prefixed, <- Hcode. now rewrite filter_unique_code.
  - unfold replace. rewrite (replace_absent _ _ _ _ Hfree), <- Hcode.
    now rewrite filter_unique_code.
Qed.

Lemma loaded_code_lookup_witness :
  returned (query_specific "ENDEX::F:TFM\Z25") loaded_world =
  CalendarFrame [clean_row (mkRawRow "ENDEX::F:TFM\Z25" (mkDate 2025 12 1)
                              (mkDate 2025 11 27))] None.
Proof.
  apply (loaded_code_lookup raw_calendar []
           (mkRawRow "ENDEX::F:TFM\Z25" (mkDate 2025 12 1) (mkDate 2025 11 27))
           "TFM\Z25").
  - simpl. auto.
  - simpl. repeat constructor; simpl; intuition discriminate.
  - reflexivity.
  - reflexivity.
Defined.

End LoadAndLookup.

(** * Texts read alike, and texts not read at all *)

Section Readings.

(** X20.  A monthly-generic query depends on its text only through what
    the parser reads: two texts parsed to the same month and sequence
    number (upper or lower case letters, leading zeros, characters after
    the digits) return the same frame with the same metadata. *)
Theorem monthly_same_reading_same_frame
    (security1 security2 : string) (point_in_time : option PointInTime) (w : World) :
  parse_monthly_generic security1 = parse_monthly_generic security2 ->
  returned (query security1 MONTHLY_GENERIC point_in_time) w =
  returned (query security2 MONTHLY_GENERIC point_in_time) w.
Proof.
  intros Hp. unfold query.
  pose proof (query_with_monthly query_spread security1 point_in_time w) as H1.
  pose proof (query_with_monthly query_spread security2 point_in_time w) as H2.
  rewrite <- Hp in H2.
  destruct (parse_monthly_generic security1) as [[abbr n]|] eqn:E1.
  - destruct H1 as (name1 & Hd1 & H1). destruct H2 as (name2 & Hd2 & H2).
    assert (name2 = name1) by congruence. subst name2. cbv zeta in H1, H2.
    destruct (len _ >=? n).
    + destruct H1 as (attrs1 & H1). destruct H2 as (attrs2 & H2).
      destruct (monthly_metadata_of _ _ _ _ _ _ H1) as (a1 & k1 & nm1 & Hq1 & He1 & ->).
      destruct (monthly_metadata_of _ _ _ _ _ _ H2) as (a2 & k2 & nm2 & Hq2 & He2 & ->).
      rewrite H1, H2.
      assert (a1 = abbr) by congruence. assert (a2 = abbr) by congruence.
      subst a1 a2.
      assert (nm1 = name1) by congruence. assert (nm2 = name1) by congruence.
      subst nm1 nm2. reflexivity.
    + now rewrite H1, H2.
  - now rewrite H1, H2.
Qed.

Lemma monthly_same_reading_same_frame_witness :
  returned (query "TFMapr01x" MONTHLY_GENERIC (on_day 2025 1 12)) sample_world =
  returned (query "TFMAPR1" MONTHLY_GENERIC (on_day 2025 1 12)) sample_world.
Proof.
  apply (monthly_same_reading_same_frame "TFMapr01x" "TFMAPR1").
  reflexivity.
Defined.

(** X21.  What the spread grammar accepts: the text starts with [TFM]
    and two upper-case month abbreviations of [month_map], and the sequence
    number read is not negative.  Month letters in lower case, which the
    monthly-generic grammar reads, make a spread text malformed. *)
Theorem parse_spread_sound (spread_text m1 m2 : string) (n : Z) :
  parse_spread spread_text = Some (m1, m2, n) ->
  is_month_abbr m1 /\ is_month_abbr m2 /\ 0 <= n /\
  prefix ("TFM" ++ m1 ++ m2) spread_text = true /\
  all_chars is_upper (m1 ++ m2) = true.
Proof.
  unfold parse_spread. intros Hp.
  destruct (Re.match_spread spread_text) as [[[a b] digits]|] eqn:Hmatch;
    [|discriminate Hp].
  destruct (dict_get month_map a) as [full1|] eqn:H1; [|discriminate Hp].
  destruct (dict_get month_map b) as [full2|] eqn:H2; [|discriminate Hp].
  inversion Hp; subst a b n. clear Hp.
  pose proof (match_spread_groups _ _ _ _ Hmatch) as [_ Hdigits].
  split; [unfold is_month_abbr; now apply (dict_get_In month_map m1 full1)|].
  split; [unfold is_month_abbr; now apply (dict_get_In month_map m2 full2)|].
  split; [now apply int_digits_nonneg|].
  unfold Re.match_spread in Hmatch.
  destruct (strip_prefix "TFM" spread_text) as [rest|] eqn:Es; [|discriminate Hmatch].
  apply strip_prefix_spec in Es. subst spread_text.
  destruct (span is_digit (substring 6 (String.length rest - 6) rest)) as [dg tail].
  destruct (_ && _)%bool eqn:Hc; [|discriminate Hmatch].
  inversion Hmatch; subst m1 m2 dg. clear Hmatch.
  repeat (apply andb_true_iff in Hc as [Hc ?]).
  destruct rest as [|c1 [|c2 [|c3 [|c4 [|c5 [|c6 rest]]]]]];
    try discriminate.
  cbn [substring append] in *. rewrite substring_none in *.
  split.
  - cbn [prefix]. repeat (destruct (ascii_dec _ _); [|congruence]).
    apply prefix_empty.
  - cbn [all_chars] in *.
    repeat match goal with
           | H : (_ && _)%bool = true |- _ => apply andb_true_iff in H as [? ?]
           end.
    repeat match goal with
           | H : is_upper _ = true |- _ => rewrite H; clear H
           end.
    reflexivity.
Qed.

Lemma parse_spread_sound_witness :
  is_month_abbr "DEC" /\ all_chars is_upper ("DEC" ++ "JUN") = true /\
  parse_spread "TFMdecJUN1" = None.
Proof.
  destruct (parse_spread_sound "TFMDECJUN1x" "DEC" "JUN" 1 eq_refl)
    as (Hm & _ & _ & _ & Hup).
  split; [exact Hm|]. split; [exact Hup | reflexivity].
Defined.

(** X22.  A specific lookup always answers with a frame over the calendar
    columns and no metadata; its rows are the table rows, still unexpired at
    the point in time if one is given, whose code is the text with its
    first [ENDEX::F:] removed, so an unknown code gives an empty frame with
    columns and never [pd.DataFrame()]. *)
Theorem specific_lookup_rows
    (security : string) (point_in_time : option PointInTime) (w : World) :
  exists rows,
    returned (query security SPECIFIC point_in_time) w = CalendarFrame rows None /\
    (forall r, In r rows <->
       In r (self_df w) /\
       TFM_Code r = replace "ENDEX::F:" EmptyString (Some 1%nat) security /\
       match point_in_time with
       | Some (At t) => ts_geb (to_datetime (expiry_date r)) t = true
       | Some (Between t1 t2) =>
           ts_geb (to_datetime (expiry_date r)) t1 = true /\
           ts_leb (to_datetime (expiry_date r)) t2 = true
       | None => True
       end) /\
    ((forall r, In r (self_df w) ->
        TFM_Code r <> replace "ENDEX::F:" EmptyString (Some 1%nat) security) ->
     rows = []).
Proof.
  unfold returned, query, query_with, bind, get_df. cbn [fst snd].
  destruct (apply_point_in_time point_in_time (self_df w)) as [ref result_df] eqn:Ep.
  eexists. split; [reflexivity|].
  assert (Hres : result_df = snd (apply_point_in_time point_in_time (self_df w)))
    by now rewrite Ep.
  split.
  - intros r. rewrite filter_In, String.eqb_eq. subst result_df.
    unfold apply_point_in_time.
    destruct point_in_time as [[t|t1 t2]|]; cbn [snd];
      rewrite ?filter_In, ?andb_true_iff; tauto.
  - intros Hnone. apply filter_nil_none. intros r Hr.
    apply String.eqb_neq. apply Hnone. subst result_df.
    now apply (apply_point_in_time_incl point_in_time).
Qed.

Lemma specific_lookup_rows_witness :
  returned (query "TFM\Q99" SPECIFIC None) sample_world = CalendarFrame [] None.
Proof.
  destruct (specific_lookup_rows "TFM\Q99" None sample_world)
    as (rows & Hq & _ & Hnone).
  rewrite Hq. f_equal. apply Hnone.
  simpl. intros r [<-|[<-|[<-|[<-|[]]]]]; discriminate.
Defined.

Lemma ts_gtb_not_ltb (a b : Timestamp) : ts_gtb a b = true -> ts_ltb a b = false.
Proof. unfold ts_gtb, ts_ltb. now destruct (ts_compare a b). Qed.

(** X23.  Once every contract of the table has expired before the point
    in time, no query returns a contract: specific, generic,
    monthly-generic and spread queries all come back empty. *)
Theorem all_expired_nothing_returned
    (security : string) (security_type : SecurityType) (t : Timestamp) (w : World) :
  (forall r, In r (self_df w) -> ts_ltb (to_datetime (expiry_date r)) t = true) ->
  empty (returned (query security security_type (Some (At t))) w) = true.
Proof.
  intros Hall.
  assert (Hnone : filter (fun r => ts_geb (to_datetime (expiry_date r)) t) (self_df w)
                  = []).
  { apply filter_nil_none. intros r Hr. unfold ts_geb. now rewrite (Hall r Hr). }
  destruct security_type.
  - unfold returned, query, query_with, bind, get_df.
    cbn [fst snd apply_point_in_time ret]. now rewrite Hnone.
  - rewrite query_generic_branch. cbn [apply_point_in_time snd]. rewrite Hnone.
    destruct (Re.match_generic security) as [group1|]; [|reflexivity].
    cbn [sort_values empty]. unfold slice. now rewrite skipn_nil, firstn_nil.
  - destruct (returned (query security MONTHLY_GENERIC (Some (At t))) w)
      as [|[|r rows] attrs|? ?] eqn:E; try reflexivity.
    + exfalso.
      assert (Hin : In r (frame_rows (returned (query security MONTHLY_GENERIC
                                                   (Some (At t))) w)))
        by (rewrite E; now left).
      unfold query in Hin.
      apply monthly_rows_nth in Hin as (abbr & n & name & _ & _ & _ & Hnth).
      apply nth_error_In in Hnth.
      pose proof (candidates_not_expired _ _ _ _ Hnth) as Hgt.
      apply candidates_In in Hnth as [Hr _].
      apply ts_gtb_not_ltb in Hgt. cbn [reference_date_of] in Hgt.
      rewrite (Hall r Hr) in Hgt. discriminate.
    + exfalso.
      pose proof (query_with_monthly query_spread security (Some (At t)) w) as H.
      fold (query security MONTHLY_GENERIC (Some (At t))) in H. rewrite E in H.
      destruct (parse_monthly_generic security) as [[abbr n]|]; [|discriminate H].
      destruct H as (name & _ & H). cbv zeta in H.
      destruct (len _ >=? n); [destruct H as (? & H)|]; discriminate H.
  - destruct (query_spread_outcomes security (Some (At t)) w)
      as [(row & meta & H)|H]; [|now rewrite H].
    exfalso.
    destruct (spread_first_leg_of _ _ _ _ _ H)
      as (first1 & Hin & _ & He & _ & _ & Hactive).
    specialize (Hactive (At t) eq_refl). rewrite <- He in Hactive.
    apply ts_gtb_not_ltb in Hactive. cbn [reference_date_of] in Hactive.
    rewrite (Hall first1 Hin) in Hactive. discriminate.
Qed.

Lemma all_expired_nothing_returned_witness :
  empty (returned (query "TFMDECJUN1" SPREAD (on_day 2030 1 1)) sample_world) = true.
Proof.
  apply (all_expired_nothing_returned "TFMDECJUN1" SPREAD
           (mkTimestamp (mkDate 2030 1 1) 0) sample_world).
  simpl. intros r [<-|[<-|[<-|[<-|[]]]]]; reflexivity.
Defined.

End Readings.
